(** * ServiceMonitor provider: a shallow embedding of [servicemonitor.py]

    The provider turns the [Prometheus] and [ServiceMonitor] custom resources
    of a helmfile into one compose service running Prometheus together with
    its scrape configuration.  This file embeds the Python code as Rocq
    functions with explicit state passing and proves the properties the
    specification states about it.

    Conventions of the embedding:
    - a Python [str] is a [string] (a sequence of bytes; non-ASCII text is
      its UTF-8 encoding);
    - a Python [int] is a [Z];
    - a [dict] that is only looked up is a [gmap]; a [dict] that is iterated
      (the service registry, [matchLabels]) is an association list in
      insertion order;
    - a [set] is a [gset];
    - [d.get(k, dflt)] on an optional key is [default dflt (field d)];
    - the mutable run context is the record [Ctx], threaded explicitly. *)

From Stdlib Require Import ZArith Ascii DecimalString DecimalPos DecimalZ.
From stdpp Require Import base option list strings gmap fin_maps fin_sets.

Local Open Scope Z_scope.

(** ** Python built-ins used by the provider *)

Module Py.

(** The double quote character, code point 34. *)
Definition dquote : ascii := ascii_of_nat 34.
Definition squote : ascii := "'"%char.
Definition backslash : ascii := "\"%char.

Fixpoint chars (s : string) : list ascii :=
  match s with
  | EmptyString => []
  | String c s' => c :: chars s'
  end.

(** [bool(s)] for a string: the empty string is falsy. *)
Definition truthy (s : string) : bool :=
  match s with
  | EmptyString => false
  | String _ _ => true
  end.

(** [c in s] for a one character [c]. *)
Fixpoint has_char (c : ascii) (s : string) : bool :=
  match s with
  | EmptyString => false
  | String d s' => Ascii.eqb c d || has_char c s'
  end.

(** [needle in hay] for strings. *)
Fixpoint contains (needle hay : string) : bool :=
  String.prefix needle hay ||
  match hay with
  | EmptyString => false
  | String _ hay' => contains needle hay'
  end.

Definition digit_value (c : ascii) : option Z :=
  let n := nat_of_ascii c in
  if (48 <=? n)%nat && (n <=? 57)%nat then Some (Z.of_nat (n - 48)) else None.

Definition is_digit_char (c : ascii) : bool :=
  match digit_value c with Some _ => true | None => false end.

Fixpoint all_digits (s : string) : bool :=
  match s with
  | EmptyString => true
  | String c s' => is_digit_char c && all_digits s'
  end.

(** [s.isdigit()]: non-empty and made of decimal digits only.  The model
    knows the ASCII digits: it is Python's answer on ASCII strings.  On a
    string with a byte from 128 up it answers [false], where Python consults
    the Unicode tables (and [int] may raise); what is proved about such
    strings is proved under the assumption that they are ASCII. *)
Definition isdigit (s : string) : bool := truthy s && all_digits s.

Fixpoint int_acc (acc : Z) (s : string) : Z :=
  match s with
  | EmptyString => acc
  | String c s' => int_acc (10 * acc + default 0 (digit_value c)) s'
  end.

(** [int(s)] for a string of decimal digits. *)
Definition int (s : string) : Z := int_acc 0 s.

(** [str(n)] for an integer. *)
Definition str_int (n : Z) : string := NilZero.string_of_int (Z.to_int n).

(** [s.lstrip('v')]: drop every leading [v]. *)
Fixpoint lstrip_v (s : string) : string :=
  match s with
  | String c s' => if Ascii.eqb c "v" then lstrip_v s' else s
  | EmptyString => EmptyString
  end.

Fixpoint join (sep : string) (l : list string) : string :=
  match l with
  | [] => ""
  | [x] => x
  | x :: l' => x +:+ sep +:+ join sep l'
  end.

Definition hex_digit (n : nat) : ascii :=
  if (n <? 10)%nat then ascii_of_nat (48 + n) else ascii_of_nat (87 + n).

(** [repr] of one character inside a string literal quoted with [q].
    Bytes from 128 up are copied: this is Python's answer when they make up
    printable characters.  Python escapes the characters beyond ASCII that
    are not printable (the no-break space becomes [\xa0]); with such a
    character in a label the text of the warning differs there, and nothing
    else does. *)
Definition repr_char (q c : ascii) : string :=
  let n := nat_of_ascii c in
  if Ascii.eqb c q || Ascii.eqb c backslash then String backslash (String c "")
  else if (n =? 9)%nat then "\t"
  else if (n =? 10)%nat then "\n"
  else if (n =? 13)%nat then "\r"
  else if (n <? 32)%nat || (n =? 127)%nat then
    String backslash (String "x" (String (hex_digit (n / 16)) (String (hex_digit (n mod 16)) "")))
  else String c "".

Fixpoint repr_body (q : ascii) (s : string) : string :=
  match s with
  | EmptyString => ""
  | String c s' => repr_char q c +:+ repr_body q s'
  end.

(** [repr(s)]: single quotes, unless the string has a single quote and no
    double quote. *)
Definition repr_str (s : string) : string :=
  let q := if has_char squote s && negb (has_char dquote s) then dquote else squote in
  String q (repr_body q s) +:+ String q "".

(** [repr(d)] of a [dict] from strings to strings, in insertion order. *)
Definition repr_dict (d : list (string * string)) : string :=
  "{" +:+ join ", " (map (λ kv, repr_str kv.1 +:+ ": " +:+ repr_str kv.2) d) +:+ "}".

End Py.

(** ** Data model *)

(** A port as YAML gives it: an integer or a string. *)
Inductive PortVal :=
  | PInt (n : Z)
  | PStr (s : string).

Global Instance PortVal_eq_dec : EqDecision PortVal.
Proof. solve_decision. Defined.

(** [bool(p)]: [0] and the empty string are falsy. *)
Definition port_truthy (p : PortVal) : bool :=
  match p with
  | PInt n => negb (n =? 0)
  | PStr s => Py.truthy s
  end.

(** [str(p)], as an f-string formats it. *)
Definition port_str (p : PortVal) : string :=
  match p with
  | PInt n => Py.str_int n
  | PStr s => s
  end.

(** One entry of a Service's [ports]. *)
Record ServicePort := {
  sp_name : option string;
  sp_port : option PortVal;
  sp_targetPort : option PortVal;
}.

(** A value of [ctx.services_by_selector].  An absent [selector] or [ports]
    reads as the empty one, an absent [namespace] as the empty string. *)
Record ServiceInfo := {
  svc_name : string;
  svc_namespace : string;
  svc_selector : gmap string string;
  svc_type : string;
  svc_ports : list ServicePort;
}.

(** [tlsConfig.ca.configMap] of an endpoint. *)
Record ConfigMapRef := {
  cm_ref_name : option string;
  cm_ref_key : option string;
}.

Record TlsConfig := {
  tls_ca_configMap : option ConfigMapRef;
  tls_serverName : option string;
}.

Record Endpoint := {
  ep_port : option PortVal;
  ep_scheme : option string;
  ep_path : option string;
  ep_interval : option string;
  ep_tlsConfig : option TlsConfig;
}.

(** A ServiceMonitor manifest: [metadata.name], [spec.selector.matchLabels]
    in encounter order, [spec.endpoints]. *)
Record ServiceMonitor := {
  sm_name : option string;
  sm_matchLabels : list (string * string);
  sm_endpoints : list Endpoint;
}.

(** A Prometheus manifest: [metadata.name] and the three [spec] fields. *)
Record PrometheusCR := {
  prom_cr_name : option string;
  prom_cr_image : option string;
  prom_cr_version : option string;
  prom_cr_retention : option string;
}.

(** [self._prometheus_spec] once set. *)
Record PrometheusSpec := {
  prom_image : string;
  prom_version : string;
  prom_retention : string;
}.

(** The [tls_config] dict of a scrape job; each key may be missing. *)
Record JobTls := {
  ca_file : option string;
  server_name : option string;
}.

Record ScrapeJob := {
  job_name : string;
  metrics_path : string;
  scrape_interval : string;
  scheme : string;
  static_configs : list (list string);
  tls_config : option JobTls;
}.

(** The document handed to [yaml.dump]. *)
Record PromConfig := {
  global_scrape_interval : string;
  scrape_configs : list ScrapeJob;
}.

(** The compose service built for Prometheus. *)
Record ComposeService := {
  cs_image : string;
  cs_restart : string;
  cs_command : list string;
  cs_volumes : list string;
  cs_ports : list string;
}.

(** [ConvertResult.services]. *)
Record ConvertResult := {
  services : list (string * ComposeService);
}.

Definition empty_result : ConvertResult := {| services := [] |}.

(** The run context.  [written] records the files the run wrote, each as its
    path components and the document serialised into it. *)
Record Ctx := {
  config_exclude : list string;
  warnings : list string;
  alias_map : gmap string string;
  services_by_selector : list (string * ServiceInfo);
  configmaps : gset string;
  generated_cms : gset string;
  output_dir : string;
  written : list (list string * PromConfig);
}.

(** [ctx.warnings.append(msg)] *)
Definition warn (msg : string) (ctx : Ctx) : Ctx :=
  {| config_exclude := config_exclude ctx;
     warnings := warnings ctx ++ [msg];
     alias_map := alias_map ctx;
     services_by_selector := services_by_selector ctx;
     configmaps := configmaps ctx;
     generated_cms := generated_cms ctx;
     output_dir := output_dir ctx;
     written := written ctx |}.

(** Lookup in an insertion-ordered dict. *)
Fixpoint assoc {A : Type} (k : string) (d : list (string * A)) : option A :=
  match d with
  | [] => None
  | (k', v) :: d' => if String.eqb k k' then Some v else assoc k d'
  end.

(** ** Service resolver *)

(** [all(selector.get(k) == v for k, v in match_labels.items())] *)
Definition labels_match (selector : gmap string string)
    (match_labels : list (string * string)) : bool :=
  forallb (λ kv, bool_decide (selector !! kv.1 = Some kv.2)) match_labels.

(** The loop of [_find_service] over [ctx.services_by_selector.values()]:
    entries with an empty selector are passed over, the first entry whose
    selector holds every label is returned. *)
Fixpoint find_service_in (match_labels : list (string * string))
    (svcs : list (string * ServiceInfo)) : option ServiceInfo :=
  match svcs with
  | [] => None
  | (_, svc_info) :: rest =>
      if bool_decide (svc_selector svc_info = ∅) then find_service_in match_labels rest
      else if labels_match (svc_selector svc_info) match_labels then Some svc_info
      else find_service_in match_labels rest
  end.

(** [_find_service] (lines 192 to 206). *)
Definition _find_service (match_labels : list (string * string)) (ctx : Ctx)
    : option ServiceInfo :=
  find_service_in match_labels (services_by_selector ctx).

(** The set [known] of [_fallback_by_name]. *)
Definition known_names (ctx : Ctx) : gset string :=
  map_img (alias_map ctx) ∪ dom (alias_map ctx)
  ∪ list_to_set (services_by_selector ctx).*1.

(** [[sm_name] + list(match_labels.values())] *)
Definition candidates (sm_name : string) (match_labels : list (string * string))
    : list string :=
  [sm_name] ++ match_labels.*2.

(** The loop of [_fallback_by_name] over the candidates. *)
Fixpoint first_known (ctx : Ctx) (known : gset string) (cands : list string)
    : option string :=
  match cands with
  | [] => None
  | candidate :: rest =>
      let compose_name := default candidate (alias_map ctx !! candidate) in
      if bool_decide (compose_name ∈ known) then Some compose_name
      else first_known ctx known rest
  end.

(** [_fallback_by_name] (lines 209 to 226). *)
Definition _fallback_by_name (sm_name : string)
    (match_labels : list (string * string)) (ctx : Ctx) : option string :=
  first_known ctx (known_names ctx) (candidates sm_name match_labels).

(** ** Port resolver *)

(** [sp.get("targetPort", sp.get("port"))] *)
Definition target_or_port (sp : ServicePort) : option PortVal :=
  match sp_targetPort sp with
  | Some tp => Some tp
  | None => sp_port sp
  end.

(** The scan of [svc_info.ports] for a port named [port_ref]. *)
Fixpoint named_port (port_ref : string) (ports : list ServicePort) : option PortVal :=
  match ports with
  | [] => None
  | sp :: rest =>
      if bool_decide (sp_name sp = Some port_ref) then
        match target_or_port sp with
        | Some (PInt n) => Some (PInt n)
        | Some (PStr s) => if Py.isdigit s then Some (PInt (Py.int s)) else None
        | None => None
        end
      else named_port port_ref rest
  end.

(** [_resolve_port] (lines 229 to 266).  The result is an integer, a string
    or [None]: the branch for a missing port returns the service's value as
    it is. *)
Definition _resolve_port (ep : Endpoint) (svc_info : option ServiceInfo)
    : option PortVal :=
  let port_ref := default (PStr "") (ep_port ep) in
  if negb (port_truthy port_ref) then
    match svc_info with
    | None => None
    | Some svc =>
        match svc_ports svc with
        | sp :: _ => target_or_port sp
        | [] => None
        end
    end
  else
    match port_ref with
    | PInt n => Some (PInt n)
    | PStr s =>
        if Py.isdigit s then Some (PInt (Py.int s))
        else
          match svc_info with
          | None => None
          | Some svc => named_port s (svc_ports svc)
          end
    end.

(** ** TLS and CA builder *)

(** [_build_tls_config] (lines 325 to 352): the [tls_config] dict, the CA
    mounts, and the context with the warning, if any. *)
Definition _build_tls_config (ep : Endpoint) (sm_name : string) (ctx : Ctx)
    : (JobTls * list string) * Ctx :=
  let ca_ref := ep_tlsConfig ep ≫= tls_ca_configMap in
  let cm_name := default "" (ca_ref ≫= cm_ref_name) in
  let cm_key := default "ca-certificates.crt" (ca_ref ≫= cm_ref_key) in
  let server_name := default "" (ep_tlsConfig ep ≫= tls_serverName) in
  let sn := if Py.truthy server_name then Some server_name else None in
  if Py.truthy cm_name && bool_decide (cm_name ∈ configmaps ctx) then
    let container_path := "/etc/prometheus/ca/" +:+ cm_name +:+ "/" +:+ cm_key in
    ({| ca_file := Some container_path; server_name := sn |},
     ["./configmaps/" +:+ cm_name +:+ "/" +:+ cm_key +:+ ":" +:+ container_path +:+ ":ro"],
     ctx)
  else if Py.truthy cm_name then
    ({| ca_file := None; server_name := sn |}, [],
     warn ("ServiceMonitor '" +:+ sm_name +:+ "': CA configmap '" +:+ cm_name
           +:+ "' not found — TLS job generated without ca_file") ctx)
  else
    ({| ca_file := None; server_name := sn |}, [], ctx).

(** [bool(tls_config)]: a dict is truthy when it has a key. *)
Definition tls_truthy (t : JobTls) : bool :=
  match ca_file t, server_name t with
  | None, None => false
  | _, _ => true
  end.

(** ** Scrape job assembler *)

(** What [_build_scrape_job] returns when it does not return [None]. *)
Record JobResult := {
  jr_job : ScrapeJob;
  jr_ca_mounts : list string;
}.

(** [_build_scrape_job] (lines 268 to 322). *)
Definition _build_scrape_job (sm_name : string) (ep_idx ep_count : nat)
    (ep : Endpoint) (svc_info : option ServiceInfo) (compose_name : string)
    (ctx : Ctx) : option JobResult * Ctx :=
  match _resolve_port ep svc_info with
  | None =>
      let port_ref := default (PStr "(none)") (ep_port ep) in
      (None,
       warn ("ServiceMonitor '" +:+ sm_name +:+ "': could not resolve port '"
             +:+ port_str port_ref +:+ "' to a number, skipping endpoint") ctx)
  | Some port =>
      let job_name :=
        if bool_decide (ep_count = 1%nat) then sm_name
        else sm_name +:+ "-" +:+ Py.str_int (Z.of_nat ep_idx) in
      let scheme := default "http" (ep_scheme ep) in
      let path := default "/metrics" (ep_path ep) in
      let interval := default "30s" (ep_interval ep) in
      let ns := from_option svc_namespace "" (assoc compose_name (services_by_selector ctx)) in
      let ns :=
        match svc_info with
        | Some svc => if Py.truthy (svc_namespace svc) then svc_namespace svc else ns
        | None => ns
        end in
      let target_host :=
        if Py.truthy ns then compose_name +:+ "." +:+ ns +:+ ".svc.cluster.local"
        else compose_name in
      let mk tls :=
        {| job_name := job_name; metrics_path := path; scrape_interval := interval;
           scheme := scheme;
           static_configs := [[target_host +:+ ":" +:+ port_str port]];
           tls_config := tls |} in
      if String.eqb scheme "https" then
        let '(tls, mounts, ctx') := _build_tls_config ep sm_name ctx in
        (Some {| jr_job := mk (if tls_truthy tls then Some tls else None);
                 jr_ca_mounts := mounts |}, ctx')
      else
        (Some {| jr_job := mk None; jr_ca_mounts := [] |}, ctx)
  end.

(** ** Output renderer *)

(** [_render_prometheus_yml], up to the call of [yaml.dump]. *)
Definition _render_prometheus_yml (scrape_jobs : list ScrapeJob) : PromConfig :=
  {| global_scrape_interval := "30s"; scrape_configs := scrape_jobs |}.

(** [_write_scrape_config] (lines 130 to 138): the document is recorded
    under its path components, the configmap name is registered. *)
Definition _write_scrape_config (scrape_jobs : list ScrapeJob) (ctx : Ctx) : Ctx :=
  let prom_config := _render_prometheus_yml scrape_jobs in
  let cm_name := "prometheus-scrape-config" in
  {| config_exclude := config_exclude ctx;
     warnings := warnings ctx;
     alias_map := alias_map ctx;
     services_by_selector := services_by_selector ctx;
     configmaps := configmaps ctx;
     generated_cms := {[cm_name]} ∪ generated_cms ctx;
     output_dir := output_dir ctx;
     written := written ctx
       ++ [([output_dir ctx; "configmaps"; cm_name; "prometheus.yml"], prom_config)] |}.

(** The loop over [ca_mounts] with its [seen] set. *)
Fixpoint append_unseen (mounts : list string) (seen : gset string)
    (volumes : list string) : list string :=
  match mounts with
  | [] => volumes
  | mount :: rest =>
      if bool_decide (mount ∈ seen) then append_unseen rest seen volumes
      else append_unseen rest ({[mount]} ∪ seen) (volumes ++ [mount])
  end.

Definition scrape_config_mount : string :=
  "./configmaps/prometheus-scrape-config/prometheus.yml:/etc/prometheus/prometheus.yml:ro".

Definition colon : ascii := ":"%char.

(** [_build_prometheus_service] (lines 140 to 176). *)
Definition _build_prometheus_service (self_spec : option PrometheusSpec)
    (ca_mounts : list string) (ctx : Ctx) : ComposeService * Ctx :=
  let image0 := from_option prom_image "" self_spec in
  let image1 := if Py.truthy image0 then image0 else "prom/prometheus" in
  let version := from_option prom_version "" self_spec in
  let image :=
    if Py.truthy version && negb (Py.has_char colon image1)
    then image1 +:+ ":v" +:+ Py.lstrip_v version
    else if negb (Py.has_char colon image1) then image1 +:+ ":latest"
    else image1 in
  let retention0 := from_option prom_retention "" self_spec in
  let retention := if Py.truthy retention0 then retention0 else "15d" in
  let ctx' :=
    match self_spec with
    | None =>
        warn ("No Prometheus CR found in manifests — using defaults (image="
              +:+ image +:+ ", retention=" +:+ retention +:+ ")") ctx
    | Some _ => ctx
    end in
  let volumes := append_unseen ca_mounts ∅ [scrape_config_mount] in
  ({| cs_image := image;
      cs_restart := "always";
      cs_command := ["--config.file=/etc/prometheus/prometheus.yml";
                     "--storage.tsdb.retention.time=" +:+ retention];
      cs_volumes := volumes;
      cs_ports := ["9090:9090"] |}, ctx').

(** [any(p.get("port") == 9090 or p.get("targetPort") == 9090 for p in ports)] *)
Definition exposes_9090 (ports : list ServicePort) : bool :=
  existsb (λ p, bool_decide (sp_port p = Some (PInt 9090))
                || bool_decide (sp_targetPort p = Some (PInt 9090))) ports.

(** The loop of [_find_prometheus_k8s_service] over the registry items. *)
Fixpoint find_prometheus_in (svcs : list (string * ServiceInfo)) : option ServiceInfo :=
  match svcs with
  | [] => None
  | (name, svc_info) :: rest =>
      if Py.contains "prometheus" name && negb (String.eqb name "prometheus")
         && exposes_9090 (svc_ports svc_info)
      then Some svc_info
      else find_prometheus_in rest
  end.

(** [_find_prometheus_k8s_service] (lines 181 to 189). *)
Definition _find_prometheus_k8s_service (ctx : Ctx) : option ServiceInfo :=
  find_prometheus_in (services_by_selector ctx).

(** The entry registered under the key [prometheus] at the end of a run. *)
Definition synthetic_prometheus (ns : string) (ports : list ServicePort) : ServiceInfo :=
  {| svc_name := "prometheus"; svc_namespace := ns; svc_selector := ∅;
     svc_type := "ClusterIP"; svc_ports := ports |}.

(** Lines 114 to 126: the alias and the registry entry for Prometheus. *)
Definition register_prometheus (ctx : Ctx) : Ctx :=
  match _find_prometheus_k8s_service ctx with
  | None => ctx
  | Some k8s_svc =>
      {| config_exclude := config_exclude ctx;
         warnings := warnings ctx;
         alias_map := <[svc_name k8s_svc := "prometheus"]> (alias_map ctx);
         services_by_selector :=
           match assoc "prometheus" (services_by_selector ctx) with
           | Some _ => services_by_selector ctx
           | None =>
               services_by_selector ctx
               ++ [("prometheus",
                    synthetic_prometheus (svc_namespace k8s_svc) (svc_ports k8s_svc))]
           end;
         configmaps := configmaps ctx;
         generated_cms := generated_cms ctx;
         output_dir := output_dir ctx;
         written := written ctx |}
  end.

(** ** Phase 1: the Prometheus resource *)

(** [_index_prometheus]: the new value of [self._prometheus_spec] and the
    lines printed on standard error. *)
Definition _index_prometheus (self_spec : option PrometheusSpec)
    (manifests : list PrometheusCR) : option PrometheusSpec * list string :=
  match manifests with
  | [] => (self_spec, [])
  | m :: extra =>
      (Some {| prom_image := default "" (prom_cr_image m);
               prom_version := default "" (prom_cr_version m);
               prom_retention := default "" (prom_cr_retention m) |},
       map (λ m', "Warning: ignoring extra Prometheus CR '"
                  +:+ default "?" (prom_cr_name m') +:+ "' (only the first is used)")
           extra)
  end.

(** ** Phase 2: the ServiceMonitors *)

(** The accumulators of the loop over the manifests, with the context. *)
Record Loop := {
  scrape_jobs : list ScrapeJob;
  ca_mounts : list string;
  loop_ctx : Ctx;
}.

(** The accumulators before the first manifest. *)
Definition start (ctx : Ctx) : Loop :=
  {| scrape_jobs := []; ca_mounts := []; loop_ctx := ctx |}.

(** Lines 76 to 88: the matched service, if any, and the compose name;
    [None] when neither the labels nor the names resolve. *)
Definition resolve_target (name : string) (match_labels : list (string * string))
    (ctx : Ctx) : option (option ServiceInfo * string) :=
  match _find_service match_labels ctx with
  | Some target_svc =>
      let svc_name := svc_name target_svc in
      Some (Some target_svc, default svc_name (alias_map ctx !! svc_name))
  | None =>
      match _fallback_by_name name match_labels ctx with
      | Some compose_name => Some (None, compose_name)
      | None => None
      end
  end.

(** The loop over [enumerate(endpoints)], from index [idx] on. *)
Fixpoint endpoints_loop (name : string) (ep_count : nat)
    (target_svc : option ServiceInfo) (compose_name : string)
    (idx : nat) (eps : list Endpoint) (st : Loop) : Loop :=
  match eps with
  | [] => st
  | ep :: rest =>
      let '(res, ctx') :=
        _build_scrape_job name idx ep_count ep target_svc compose_name (loop_ctx st) in
      let st' :=
        match res with
        | None => {| scrape_jobs := scrape_jobs st; ca_mounts := ca_mounts st;
                     loop_ctx := ctx' |}
        | Some r => {| scrape_jobs := scrape_jobs st ++ [jr_job r];
                       ca_mounts := ca_mounts st ++ jr_ca_mounts r;
                       loop_ctx := ctx' |}
        end in
      endpoints_loop name ep_count target_svc compose_name (S idx) rest st'
  end.

(** [ctx.warnings.append(msg)] inside the loop; the accumulators stay. *)
Definition warn_loop (msg : string) (st : Loop) : Loop :=
  {| scrape_jobs := scrape_jobs st; ca_mounts := ca_mounts st;
     loop_ctx := warn msg (loop_ctx st) |}.

Section Provider.

(** [fnmatch.fnmatch name pat] of the Python library. *)
Variable fnmatch : string → string → bool.

(** [_is_excluded] (lines 355 to 357). *)
Definition _is_excluded (name : string) (exclude : list string) : bool :=
  existsb (fnmatch name) exclude.

(** The body of the loop over the manifests (lines 65 to 102). *)
Definition monitor_step (st : Loop) (m : ServiceMonitor) : Loop :=
  let ctx := loop_ctx st in
  let name := default "?" (sm_name m) in
  let match_labels := sm_matchLabels m in
  match match_labels with
  | [] =>
      warn_loop ("ServiceMonitor '" +:+ name +:+ "': no selector.matchLabels, skipping") st
  | _ :: _ =>
      match resolve_target name match_labels ctx with
      | None =>
          warn_loop ("ServiceMonitor '" +:+ name +:+ "': no K8s Service matches labels "
                     +:+ Py.repr_dict match_labels +:+ ", skipping") st
      | Some (target_svc, compose_name) =>
          if _is_excluded compose_name (config_exclude ctx) then st
          else
            let endpoints := sm_endpoints m in
            endpoints_loop name (length endpoints) target_svc compose_name 0 endpoints st
      end
  end.

(** [for m in manifests: ...] *)
Definition monitors_loop (manifests : list ServiceMonitor) (st : Loop) : Loop :=
  fold_left monitor_step manifests st.

(** [_process_servicemonitors] (lines 56 to 128); [self_spec] is
    [self._prometheus_spec]. *)
Definition _process_servicemonitors (self_spec : option PrometheusSpec)
    (manifests : list ServiceMonitor) (ctx : Ctx) : ConvertResult * Ctx :=
  match manifests with
  | [] => (empty_result, ctx)
  | _ :: _ =>
      let st := monitors_loop manifests (start ctx) in
      match scrape_jobs st with
      | [] => (empty_result, warn "No resolvable ServiceMonitors found" (loop_ctx st))
      | _ :: _ =>
          let ctx1 := _write_scrape_config (scrape_jobs st) (loop_ctx st) in
          let '(service, ctx2) := _build_prometheus_service self_spec (ca_mounts st) ctx1 in
          ({| services := [("prometheus", service)] |}, register_prometheus ctx2)
      end
  end.

End Provider.

(** ** Notions of the specification *)

(** The alias table applied to a name, the identity where it has no entry. *)
Definition alias_of (ctx : Ctx) (candidate : string) : string :=
  default candidate (alias_map ctx !! candidate).

(** A name is accepted by the name heuristic when it is a key of the alias
    table, a value of the alias table, or a key of the service registry. *)
Definition accepted (ctx : Ctx) (x : string) : Prop :=
  (∃ v, alias_map ctx !! x = Some v)
  ∨ (∃ k, alias_map ctx !! k = Some x)
  ∨ (∃ s, (x, s) ∈ services_by_selector ctx).

(** The context [ctx] with its warning sink replaced. *)
Definition with_warnings (ws : list string) (ctx : Ctx) : Ctx :=
  {| config_exclude := config_exclude ctx;
     warnings := ws;
     alias_map := alias_map ctx;
     services_by_selector := services_by_selector ctx;
     configmaps := configmaps ctx;
     generated_cms := generated_cms ctx;
     output_dir := output_dir ctx;
     written := written ctx |}.

(** The warnings of the loop over the monitors all start the same way. *)
Definition monitor_warning (w : string) : Prop :=
  String.prefix "ServiceMonitor '" w = true.

(** [ctx'] is [ctx] after the warnings [ws] were appended, and nothing else
    was touched. *)
Definition appends (ctx : Ctx) (ws : list string) (ctx' : Ctx) : Prop :=
  ctx' = with_warnings (warnings ctx ++ ws) ctx.

(** The name the naming rule gives to the job of endpoint [idx] of a monitor
    with [ep_count] endpoints. *)
Definition job_name_for (name : string) (ep_count idx : nat) : string :=
  if decide (ep_count = 1%nat) then name
  else name +:+ "-" +:+ Py.str_int (Z.of_nat idx).

(** The zero-based positions, counted from [idx], of the endpoints whose
    port resolves against [svc_info]. *)
Fixpoint emitted_indices (svc_info : option ServiceInfo) (idx : nat)
    (eps : list Endpoint) : list nat :=
  match eps with
  | [] => []
  | ep :: rest =>
      match _resolve_port ep svc_info with
      | Some _ => idx :: emitted_indices svc_info (S idx) rest
      | None => emitted_indices svc_info (S idx) rest
      end
  end.

(** A list without its repetitions, each element kept where it is first
    seen. *)
Fixpoint dedup_first_seen (l : list string) : list string :=
  match l with
  | [] => []
  | x :: l' => x :: filter (λ y, y ≠ x) (dedup_first_seen l')
  end.

(** [k] times the letter [v]. *)
Fixpoint leading_vs (k : nat) : string :=
  match k with
  | O => ""
  | S k' => String "v" (leading_vs k')
  end.

(** The mount-spec line of the CA file [key] of the configmap [cm]:
    [<source>:<container path>:ro]. *)
Definition ca_mount_line (cm key : string) : string :=
  "./configmaps/" +:+ cm +:+ "/" +:+ key +:+ ":"
  +:+ ("/etc/prometheus/ca/" +:+ cm +:+ "/" +:+ key) +:+ ":ro".

(** ** A concrete matcher and concrete runs *)

(** Modelled from the spec: [fnmatch.fnmatch] belongs to Python's library,
    not to the repository; the spec gives it shell wildcard semantics.  This
    matcher covers the ASCII patterns made of literal characters, [*] (any
    sequence) and [?] (any one character); it has no character classes (a
    bracket is a literal here).  It only instantiates [fnmatch] in the
    concrete runs below, whose patterns stay in that fragment; every theorem
    about exclusion holds for any matcher. *)
Fixpoint glob (pat name : string) : bool :=
  match pat with
  | EmptyString => negb (Py.truthy name)
  | String c pat' =>
      if Ascii.eqb c "*" then
        (fix star (n : string) : bool :=
           glob pat' n || match n with
                          | EmptyString => false
                          | String _ n' => star n'
                          end) name
      else
        match name with
        | EmptyString => false
        | String d name' => (Ascii.eqb c "?" || Ascii.eqb c d) && glob pat' name'
        end
  end.

Definition glob_fnmatch (name pat : string) : bool := glob pat name.

Definition empty_ctx : Ctx :=
  {| config_exclude := []; warnings := []; alias_map := ∅;
     services_by_selector := []; configmaps := ∅; generated_cms := ∅;
     output_dir := "out"; written := [] |}.

Definition plain_endpoint (port : option PortVal) : Endpoint :=
  {| ep_port := port; ep_scheme := None; ep_path := None; ep_interval := None;
     ep_tlsConfig := None |}.

(** The registry service of scenario A. *)
Definition api_service : ServiceInfo :=
  {| svc_name := "api"; svc_namespace := "prod";
     svc_selector := {[ "app" := "api" ]}; svc_type := "ClusterIP";
     svc_ports := [ {| sp_name := Some "http"; sp_port := Some (PInt 8080);
                       sp_targetPort := Some (PInt 8080) |} ] |}.

Definition api_ctx : Ctx :=
  {| config_exclude := []; warnings := []; alias_map := ∅;
     services_by_selector := [("api", api_service)]; configmaps := ∅;
     generated_cms := ∅; output_dir := "out"; written := [] |}.

Definition api_monitor : ServiceMonitor :=
  {| sm_name := Some "api"; sm_matchLabels := [("app", "api")];
     sm_endpoints := [ {| ep_port := Some (PStr "http"); ep_scheme := None;
                          ep_path := Some "/metrics"; ep_interval := None;
                          ep_tlsConfig := None |} ] |}.

Definition quay_spec : PrometheusCR :=
  {| prom_cr_name := Some "k8s"; prom_cr_image := Some "quay.io/prometheus/prometheus";
     prom_cr_version := Some "2.45.0"; prom_cr_retention := Some "30d" |}.

(** Two monitors with different names, matched by label to one service. *)
Definition web_service : ServiceInfo :=
  {| svc_name := "web"; svc_namespace := ""; svc_selector := {[ "app" := "web" ]};
     svc_type := "ClusterIP"; svc_ports := [] |}.

Definition web_ctx : Ctx :=
  {| config_exclude := []; warnings := []; alias_map := ∅;
     services_by_selector := [("web", web_service)]; configmaps := ∅;
     generated_cms := ∅; output_dir := "out"; written := [] |}.

Definition web_monitor : ServiceMonitor :=
  {| sm_name := Some "web"; sm_matchLabels := [("app", "web")];
     sm_endpoints := [plain_endpoint (Some (PInt 8080)); plain_endpoint (Some (PInt 9100))] |}.

Definition web0_monitor : ServiceMonitor :=
  {| sm_name := Some "web-0"; sm_matchLabels := [("app", "web")];
     sm_endpoints := [plain_endpoint (Some (PInt 8443))] |}.

(** A service whose only port targets a named container port. *)
Definition named_target_service : ServiceInfo :=
  {| svc_name := "api"; svc_namespace := ""; svc_selector := {[ "app" := "api" ]};
     svc_type := "ClusterIP";
     svc_ports := [ {| sp_name := Some "web"; sp_port := Some (PInt 8080);
                       sp_targetPort := Some (PStr "http") |} ] |}.

Definition named_target_ctx : Ctx :=
  {| config_exclude := []; warnings := []; alias_map := ∅;
     services_by_selector := [("api", named_target_service)]; configmaps := ∅;
     generated_cms := ∅; output_dir := "out"; written := [] |}.

(** A monitor whose endpoint gives no port. *)
Definition portless_monitor : ServiceMonitor :=
  {| sm_name := Some "api"; sm_matchLabels := [("app", "api")];
     sm_endpoints := [plain_endpoint None] |}.

(** Keycloak: its Service is created at run time, so the registry does not
    have it; the alias table knows the compose service. *)
Definition keycloak_ctx : Ctx :=
  {| config_exclude := ["keycloak*"]; warnings := [];
     alias_map := {[ "keycloak-service" := "keycloak" ]};
     services_by_selector := []; configmaps := ∅;
     generated_cms := ∅; output_dir := "out"; written := [] |}.

Definition keycloak_monitor : ServiceMonitor :=
  {| sm_name := Some "keycloak-metrics"; sm_matchLabels := [("app", "keycloak")];
     sm_endpoints := [plain_endpoint (Some (PStr "management"))] |}.

(** A monitor that nothing resolves (scenario C). *)
Definition orphan_monitor : ServiceMonitor :=
  {| sm_name := Some "orphan"; sm_matchLabels := [("app", "orphan")];
     sm_endpoints := [plain_endpoint (Some (PInt 8080))] |}.

(** An https endpoint whose CA configmap is not among the known artifacts
    (scenario D). *)
Definition https_endpoint : Endpoint :=
  {| ep_port := Some (PStr "http"); ep_scheme := Some "https"; ep_path := None;
     ep_interval := None;
     ep_tlsConfig :=
       Some {| tls_ca_configMap := Some {| cm_ref_name := Some "internal-ca";
                                           cm_ref_key := None |};
               tls_serverName := None |} |}.

(** ** The dispatcher's entry point *)

(** A manifest as the dispatcher hands it over, with the keys that either
    kind of resource is read for: [metadata.name], the [spec] fields of a
    Prometheus resource, and [spec.selector.matchLabels] and
    [spec.endpoints] of a ServiceMonitor. *)
Record Manifest := {
  mf_name : option string;
  mf_image : option string;
  mf_version : option string;
  mf_retention : option string;
  mf_matchLabels : list (string * string);
  mf_endpoints : list Endpoint;
}.

(** What [_index_prometheus] reads of a manifest. *)
Definition as_prometheus (m : Manifest) : PrometheusCR :=
  {| prom_cr_name := mf_name m; prom_cr_image := mf_image m;
     prom_cr_version := mf_version m; prom_cr_retention := mf_retention m |}.

(** What [_process_servicemonitors] reads of a manifest. *)
Definition as_servicemonitor (m : Manifest) : ServiceMonitor :=
  {| sm_name := mf_name m; sm_matchLabels := mf_matchLabels m;
     sm_endpoints := mf_endpoints m |}.

(** The provider object: [self._prometheus_spec], and the lines it printed
    on standard error. *)
Record ProviderState := {
  _prometheus_spec : option PrometheusSpec;
  stderr : list string;
}.

(** [ServiceMonitorProvider.__init__] *)
Definition new_provider : ProviderState :=
  {| _prometheus_spec := None; stderr := [] |}.

(** [convert] (lines 29 to 33): the kind [Prometheus] is indexed, every
    other kind is processed as ServiceMonitors. *)
Definition convert (fnmatch : string → string → bool) (self : ProviderState)
    (kind : string) (manifests : list Manifest) (ctx : Ctx)
    : ConvertResult * ProviderState * Ctx :=
  if String.eqb kind "Prometheus" then
    let '(spec, lines) :=
      _index_prometheus (_prometheus_spec self) (as_prometheus <$> manifests) in
    (empty_result, {| _prometheus_spec := spec; stderr := stderr self ++ lines |}, ctx)
  else
    let '(res, ctx') :=
      _process_servicemonitors fnmatch (_prometheus_spec self)
        (as_servicemonitor <$> manifests) ctx in
    (res, self, ctx').

(** ** Further notions *)

(** A registry service qualifies for a label selector when its own selector
    is not empty and holds every label of the selector with the same
    value. *)
Definition qualifies (match_labels : list (string * string)) (s : ServiceInfo) : Prop :=
  svc_selector s ≠ ∅ ∧ ∀ k v, (k, v) ∈ match_labels → svc_selector s !! k = Some v.

(** A registry entry stands for the Prometheus service of the cluster when
    its key contains [prometheus] without being [prometheus] and one of its
    ports has 9090 as port or target port. *)
Definition exposes_prometheus (key : string) (s : ServiceInfo) : Prop :=
  (∃ a b, key = a +:+ "prometheus" +:+ b)
  ∧ key ≠ "prometheus"
  ∧ ∃ p, p ∈ svc_ports s
         ∧ (sp_port p = Some (PInt 9090) ∨ sp_targetPort p = Some (PInt 9090)).


(** The loop state with another warning sink. *)
Definition loop_with_warnings (ws : list string) (st : Loop) : Loop :=
  {| scrape_jobs := scrape_jobs st; ca_mounts := ca_mounts st;
     loop_ctx := with_warnings ws (loop_ctx st) |}.

(** A mount-spec line of a CA file of a configmap known to [ctx]. *)
Definition known_ca_mount (ctx : Ctx) (mount : string) : Prop :=
  ∃ cm key, cm ∈ configmaps ctx ∧ cm ≠ "" ∧ mount = ca_mount_line cm key.


(** A cluster with the Service of kube-prometheus-stack. *)
Definition kube_prometheus_service : ServiceInfo :=
  {| svc_name := "kube-prometheus"; svc_namespace := "mon";
     svc_selector := {[ "app" := "prometheus" ]}; svc_type := "ClusterIP";
     svc_ports := [ {| sp_name := Some "web"; sp_port := Some (PInt 9090);
                       sp_targetPort := None |} ] |}.

Definition kube_ctx : Ctx :=
  {| config_exclude := []; warnings := []; alias_map := ∅;
     services_by_selector := [("kube-prometheus", kube_prometheus_service)];
     configmaps := {[ "internal-ca" ]}; generated_cms := ∅; output_dir := "out";
     written := [] |}.

(** An https endpoint with a numeric port whose CA configmap is known to
    [kube_ctx]; it names no key. *)
Definition ca_endpoint : Endpoint :=
  {| ep_port := Some (PInt 8443); ep_scheme := Some "https"; ep_path := None;
     ep_interval := None;
     ep_tlsConfig :=
       Some {| tls_ca_configMap := Some {| cm_ref_name := Some "internal-ca";
                                           cm_ref_key := None |};
               tls_serverName := None |} |}.

(** The warnings a conversion of ServiceMonitors may append once a
    Prometheus resource was indexed. *)
Definition run_warning (w : string) : Prop :=
  monitor_warning w ∨ w = "No resolvable ServiceMonitors found".

(** A Prometheus manifest and a ServiceMonitor manifest, as dispatched. *)
Definition quay_manifest : Manifest :=
  {| mf_name := Some "k8s"; mf_image := Some "quay.io/prometheus/prometheus";
     mf_version := Some "v2.45.0"; mf_retention := None;
     mf_matchLabels := []; mf_endpoints := [] |}.

Definition api_manifest : Manifest :=
  {| mf_name := Some "api"; mf_image := None; mf_version := None; mf_retention := None;
     mf_matchLabels := [("app", "api")];
     mf_endpoints := [plain_endpoint (Some (PStr "http"))] |}.

(** A service whose first port named [web] targets a container port by
    name, followed by a port of the same name with a numeric target. *)
Definition shadowed_service : ServiceInfo :=
  {| svc_name := "api"; svc_namespace := ""; svc_selector := {[ "app" := "api" ]};
     svc_type := "ClusterIP";
     svc_ports := [ {| sp_name := Some "web"; sp_port := Some (PInt 80);
                       sp_targetPort := Some (PStr "http") |};
                    {| sp_name := Some "web"; sp_port := Some (PInt 81);
                       sp_targetPort := Some (PInt 8081) |} ] |}.

(** A string of ASCII characters only.  On such strings [Py.isdigit] and
    [Py.int] are Python's [str.isdigit] and [int]; on other strings Python
    consults the Unicode tables, which the model does not have. *)
Fixpoint is_ascii (s : string) : bool :=
  match s with
  | EmptyString => true
  | String c s' => (nat_of_ascii c <? 128)%nat && is_ascii s'
  end.

(** The context [ctx] with the fields the loop over the manifests has no
    business with replaced: the warnings, the generated configmaps, the
    output directory and the written files. *)
Definition with_frame (ws : list string) (gen : gset string) (out : string)
    (wr : list (list string * PromConfig)) (ctx : Ctx) : Ctx :=
  {| config_exclude := config_exclude ctx;
     warnings := ws;
     alias_map := alias_map ctx;
     services_by_selector := services_by_selector ctx;
     configmaps := configmaps ctx;
     generated_cms := gen;
     output_dir := out;
     written := wr |}.

(** A monitor of the Prometheus service of [kube_ctx] with two endpoints
    that refer to the same CA configmap and key. *)
Definition two_ca_monitor : ServiceMonitor :=
  {| sm_name := Some "prom"; sm_matchLabels := [("app", "prometheus")];
     sm_endpoints := [ca_endpoint; ca_endpoint] |}.

(** ** Properties *)

Example repr_dict_app :
  Py.repr_dict [("app", "api"); ("tier", "it's")] =
  "{'app': 'api', 'tier': " +:+ String Py.dquote ("it's" +:+ String Py.dquote "}").
Proof. reflexivity. Qed.

Example int_leading_zeros : Py.int "0080" = 80 ∧ Py.str_int 80 = "80" ∧ Py.isdigit "" = false.
Proof. repeat split. Qed.


Example glob_star : glob_fnmatch "keycloak-metrics" "keycloak*" = true
                    ∧ glob_fnmatch "api" "keycloak*" = false
                    ∧ glob_fnmatch "api" "a?i" = true.
Proof. repeat split. Qed.

(** Scenario A of the specification. *)
Example scenario_A :
  let '(res, ctx') :=
    _process_servicemonitors glob_fnmatch (_index_prometheus None [quay_spec]).1
      [api_monitor] api_ctx in
  warnings ctx' = []
  ∧ (cs_image <$> assoc "prometheus" (services res))
      = Some "quay.io/prometheus/prometheus:v2.45.0"
  ∧ (cs_command <$> assoc "prometheus" (services res))
      = Some ["--config.file=/etc/prometheus/prometheus.yml";
              "--storage.tsdb.retention.time=30d"]
  ∧ (λ w, (job_name <$> scrape_configs w.2, static_configs <$> scrape_configs w.2))
      <$> written ctx'
      = [(["api"], [[["api.prod.svc.cluster.local:8080"]]])].
Proof. vm_compute. repeat split. Qed.

(** *** Label matching *)

Lemma labels_match_spec (selector : gmap string string) (ml : list (string * string)) :
  labels_match selector ml = true ↔ ∀ k v, (k, v) ∈ ml → selector !! k = Some v.
Proof.
  unfold labels_match. rewrite forallb_forall. split.
  - intros H k v Hin. apply list_elem_of_In, H in Hin.
    by apply bool_decide_eq_true in Hin.
  - intros H [k v] Hin. apply bool_decide_eq_true, H. by apply list_elem_of_In.
Qed.

(** What a successful label match returns: an entry of the registry, with
    a selector that is not empty and contains every label asked for. *)
Lemma find_service_in_Some ml svcs s :
  find_service_in ml svcs = Some s →
  svc_selector s ≠ ∅ ∧ labels_match (svc_selector s) ml = true ∧ ∃ k, (k, s) ∈ svcs.
Proof.
  induction svcs as [|[k info] rest IH]; simpl; [done|].
  case_bool_decide as Hsel.
  - intros H. destruct (IH H) as (? & ? & k' & ?). repeat split; eauto.
    exists k'. by right.
  - destruct (labels_match (svc_selector info) ml) eqn:Hm.
    + intros [= <-]. repeat split; eauto. exists k. by left.
    + intros H. destruct (IH H) as (? & ? & k' & ?). repeat split; eauto.
      exists k'. by right.
Qed.

(** Entries with an empty selector are invisible to the label match. *)
Lemma find_service_in_app_empty ml svcs k s :
  svc_selector s = ∅ → find_service_in ml (svcs ++ [(k, s)]) = find_service_in ml svcs.
Proof.
  intros Hs. induction svcs as [|[k' info] rest IH]; simpl.
  - by rewrite bool_decide_eq_true_2.
  - rewrite IH. done.
Qed.

Lemma find_service_register ml ctx :
  _find_service ml (register_prometheus ctx) = _find_service ml ctx.
Proof.
  unfold register_prometheus, _find_service.
  destruct (_find_prometheus_k8s_service ctx) as [k8s|]; [|done]. simpl.
  destruct (assoc "prometheus" (services_by_selector ctx)); [done|].
  by apply find_service_in_app_empty.
Qed.

(** C10: whatever the (non-empty) [matchLabels], the label match never
    returns a registry service with an empty selector.  In particular it
    never returns the synthetic entry registered under the key
    [prometheus], and registering that entry leaves every label match as it
    was. *)
Theorem C10_label_match_skips_empty_selector
    (ml : list (string * string)) (ctx : Ctx) :
  ml ≠ [] →
  (∀ s, _find_service ml ctx = Some s → svc_selector s ≠ ∅)
  ∧ (∀ ns ports, _find_service ml ctx ≠ Some (synthetic_prometheus ns ports))
  ∧ (∀ ns ports,
       _find_service ml
         {| config_exclude := config_exclude ctx; warnings := warnings ctx;
            alias_map := alias_map ctx;
            services_by_selector :=
              services_by_selector ctx ++ [("prometheus", synthetic_prometheus ns ports)];
            configmaps := configmaps ctx; generated_cms := generated_cms ctx;
            output_dir := output_dir ctx; written := written ctx |}
       = _find_service ml ctx)
  ∧ _find_service ml (register_prometheus ctx) = _find_service ml ctx.
Proof.
  intros _. repeat split.
  - intros s Hs. by apply find_service_in_Some in Hs as [? _].
  - intros ns ports Hs. apply find_service_in_Some in Hs as [Hne _]. by apply Hne.
  - intros ns ports. unfold _find_service. simpl. by apply find_service_in_app_empty.
  - apply find_service_register.
Qed.

Lemma C10_witness :
  let ctx := register_prometheus
    {| config_exclude := []; warnings := []; alias_map := ∅;
       services_by_selector :=
         [("kube-prometheus", {| svc_name := "kube-prometheus"; svc_namespace := "mon";
                                 svc_selector := {[ "app" := "prometheus" ]};
                                 svc_type := "ClusterIP";
                                 svc_ports := [ {| sp_name := Some "web";
                                                   sp_port := Some (PInt 9090);
                                                   sp_targetPort := None |} ] |})];
       configmaps := ∅; generated_cms := ∅; output_dir := "out"; written := [] |} in
  [("app", "prometheus")] ≠ []
  ∧ (svc_name <$> _find_service [("app", "prometheus")] ctx) = Some "kube-prometheus"
  ∧ ∀ s, _find_service [("app", "prometheus")] ctx = Some s → svc_selector s ≠ ∅.
Proof.
  intros ctx. split; [done|]. split; [by vm_compute|].
  exact (proj1 (C10_label_match_skips_empty_selector [("app", "prometheus")] ctx
                  ltac:(done))).
Defined.

(** *** Name fallback *)

Lemma known_names_spec ctx x : x ∈ known_names ctx ↔ accepted ctx x.
Proof.
  unfold known_names, accepted.
  rewrite !elem_of_union, elem_of_map_img, elem_of_dom, elem_of_list_to_set,
    list_elem_of_fmap.
  split.
  - intros [[H|[v H]]|([k s] & -> & H)]; eauto.
  - intros [[v H]|[H|[s H]]]; eauto.
    right. by exists (x, s).
Qed.

Lemma first_known_first ctx known pre c post :
  (∀ c', c' ∈ pre → alias_of ctx c' ∉ known) →
  alias_of ctx c ∈ known →
  first_known ctx known (pre ++ c :: post) = Some (alias_of ctx c).
Proof.
  intros Hpre Hc. induction pre as [|p pre IH]; simpl.
  - by rewrite bool_decide_eq_true_2.
  - rewrite bool_decide_eq_false_2 by (apply Hpre; by left).
    apply IH. intros c' Hin. apply Hpre. by right.
Qed.

Lemma first_known_none ctx known cands :
  (∀ c, c ∈ cands → alias_of ctx c ∉ known) → first_known ctx known cands = None.
Proof.
  induction cands as [|c cands IH]; simpl; [done|]. intros H.
  rewrite bool_decide_eq_false_2 by (apply H; by left).
  apply IH. intros c' Hin. apply H. by right.
Qed.

(** C1: for a monitor whose non-empty [matchLabels] match no registry
    service by label, the candidates are the monitor name followed by the
    values of [matchLabels] in encounter order; each is resolved through
    the alias table, and the resolved name of the first candidate that is
    accepted (a key or a value of the alias table, or a registry key) is
    the result.  When no candidate is accepted the monitor is skipped: no
    job, no mount, and exactly one warning, which carries the monitor's
    name and its selector. *)
Theorem C1_name_fallback (fnmatch : string → string → bool)
    (st : Loop) (m : ServiceMonitor) :
  let ctx := loop_ctx st in
  let name := default "?" (sm_name m) in
  let ml := sm_matchLabels m in
  let cands := name :: ml.*2 in
  ml ≠ [] →
  _find_service ml ctx = None →
  (∀ pre c post,
     cands = pre ++ c :: post →
     (∀ c', c' ∈ pre → ¬ accepted ctx (alias_of ctx c')) →
     accepted ctx (alias_of ctx c) →
     _fallback_by_name name ml ctx = Some (alias_of ctx c)
     ∧ resolve_target name ml ctx = Some (None, alias_of ctx c))
  ∧ ((∀ c, c ∈ cands → ¬ accepted ctx (alias_of ctx c)) →
     _fallback_by_name name ml ctx = None
     ∧ scrape_jobs (monitor_step fnmatch st m) = scrape_jobs st
     ∧ ca_mounts (monitor_step fnmatch st m) = ca_mounts st
     ∧ warnings (loop_ctx (monitor_step fnmatch st m))
       = warnings ctx
         ++ ["ServiceMonitor '" +:+ name +:+ "': no K8s Service matches labels "
             +:+ Py.repr_dict ml +:+ ", skipping"]).
Proof.
  intros ctx name ml cands Hml Hfind. split.
  - intros pre c post Hsplit Hpre Hc.
    assert (_fallback_by_name name ml ctx = Some (alias_of ctx c)) as Hfb.
    { unfold _fallback_by_name. change (candidates name ml) with cands. rewrite Hsplit.
      apply first_known_first.
      - intros c' Hin. rewrite known_names_spec. by apply Hpre.
      - by apply known_names_spec. }
    split; [done|]. unfold resolve_target. by rewrite Hfind, Hfb.
  - intros Hnone.
    assert (_fallback_by_name name ml ctx = None) as Hfb.
    { unfold _fallback_by_name. change (candidates name ml) with cands.
      apply first_known_none. intros c Hin. rewrite known_names_spec. by apply Hnone. }
    split; [done|]. unfold monitor_step. fold ctx name ml.
    destruct ml as [|kv ml']; [done|].
    unfold resolve_target. rewrite Hfind, Hfb. done.
Qed.

(** *** The loop only appends warnings *)

Lemma with_warnings_id ctx : with_warnings (warnings ctx) ctx = ctx.
Proof. by destruct ctx. Qed.

Lemma appends_refl ctx : appends ctx [] ctx.
Proof. unfold appends. by rewrite app_nil_r, with_warnings_id. Qed.

Lemma appends_warn ctx msg : appends ctx [msg] (warn msg ctx).
Proof. done. Qed.

Lemma appends_trans c1 ws1 c2 ws2 c3 :
  appends c1 ws1 c2 → appends c2 ws2 c3 → appends c1 (ws1 ++ ws2) c3.
Proof. unfold appends. intros -> ->. simpl. by rewrite app_assoc. Qed.

Lemma prefix_append p r : String.prefix p (p +:+ r) = true.
Proof.
  induction p as [|c p IH]; simpl; [by destruct r|].
  destruct (ascii_dec c c); [done|congruence].
Qed.

Lemma monitor_warning_intro r : monitor_warning ("ServiceMonitor '" +:+ r).
Proof. apply prefix_append. Qed.

Lemma build_tls_config_appends ep name ctx :
  ∃ ws, appends ctx ws (_build_tls_config ep name ctx).2
        ∧ Forall monitor_warning ws ∧ (length ws ≤ 1)%nat.
Proof.
  unfold _build_tls_config.
  repeat case_match; simpl;
    try (exists []; split; [apply appends_refl|split; [constructor|simpl; lia]]).
  all: eexists [_]; split; [apply appends_warn|].
  all: split; [|simpl; lia]; repeat constructor; apply monitor_warning_intro.
Qed.

Lemma build_scrape_job_appends name idx cnt ep svc compose ctx :
  ∃ ws, appends ctx ws (_build_scrape_job name idx cnt ep svc compose ctx).2
        ∧ Forall monitor_warning ws.
Proof.
  unfold _build_scrape_job.
  destruct (_resolve_port ep svc) as [port|]; simpl.
  - destruct (String.eqb _ "https").
    + destruct (build_tls_config_appends ep name ctx) as (ws & H & HF & _).
      destruct (_build_tls_config ep name ctx) as [[tls mounts] ctx']. simpl in *.
      eauto.
    + exists []. split; [apply appends_refl|constructor].
  - eexists [_]. split; [apply appends_warn|].
    repeat constructor. apply monitor_warning_intro.
Qed.

Lemma endpoints_loop_appends name cnt svc compose eps : ∀ idx st,
  ∃ ws, appends (loop_ctx st) ws
          (loop_ctx (endpoints_loop name cnt svc compose idx eps st))
        ∧ Forall monitor_warning ws.
Proof.
  induction eps as [|ep eps IH]; intros idx st; simpl.
  - exists []. split; [apply appends_refl|constructor].
  - destruct (build_scrape_job_appends name idx cnt ep svc compose (loop_ctx st))
      as (ws1 & H1 & HF1).
    destruct (_build_scrape_job name idx cnt ep svc compose (loop_ctx st))
      as [res ctx']. simpl in H1.
    match goal with
    | |- context [endpoints_loop _ _ _ _ _ _ ?s] =>
        destruct (IH (S idx) s) as (ws2 & H2 & HF2)
    end.
    exists (ws1 ++ ws2). split; [|by apply Forall_app].
    eapply appends_trans; [exact H1|]. by destruct res.
Qed.

Section Frame.

Variable fnmatch : string → string → bool.

Lemma monitor_step_appends st m :
  ∃ ws, appends (loop_ctx st) ws (loop_ctx (monitor_step fnmatch st m))
        ∧ Forall monitor_warning ws.
Proof.
  unfold monitor_step.
  destruct (sm_matchLabels m) as [|kv ml].
  { eexists [_]. split; [apply appends_warn|].
    repeat constructor. apply monitor_warning_intro. }
  destruct (resolve_target _ _ _) as [[svc compose]|].
  - destruct (_is_excluded _ _ _).
    + exists []. split; [apply appends_refl|constructor].
    + apply endpoints_loop_appends.
  - eexists [_]. split; [apply appends_warn|].
    repeat constructor. apply monitor_warning_intro.
Qed.

Lemma monitors_loop_appends ms : ∀ st,
  ∃ ws, appends (loop_ctx st) ws (loop_ctx (monitors_loop fnmatch ms st))
        ∧ Forall monitor_warning ws.
Proof.
  induction ms as [|m ms IH]; intros st; simpl.
  - exists []. split; [apply appends_refl|constructor].
  - destruct (monitor_step_appends st m) as (ws1 & H1 & HF1).
    destruct (IH (monitor_step fnmatch st m)) as (ws2 & H2 & HF2).
    exists (ws1 ++ ws2). split; [|by apply Forall_app].
    by eapply appends_trans.
Qed.

End Frame.

(** Resolution reads the alias table and the registry only. *)
Lemma first_known_with_warnings ws ctx known cands :
  first_known (with_warnings ws ctx) known cands = first_known ctx known cands.
Proof. induction cands as [|c cands IH]; simpl; [done|]. by rewrite IH. Qed.

Lemma resolve_target_with_warnings ws name ml ctx :
  resolve_target name ml (with_warnings ws ctx) = resolve_target name ml ctx.
Proof.
  unfold resolve_target, _fallback_by_name.
  change (_find_service ml (with_warnings ws ctx)) with (_find_service ml ctx).
  change (known_names (with_warnings ws ctx)) with (known_names ctx).
  by rewrite first_known_with_warnings.
Qed.

(** *** Exclusion *)

Lemma is_excluded_spec fnmatch name exclude :
  _is_excluded fnmatch name exclude = true
  ↔ ∃ pat, pat ∈ exclude ∧ fnmatch name pat = true.
Proof.
  unfold _is_excluded. rewrite existsb_exists.
  split; intros (pat & Hin & Hm); exists pat; split; auto; by apply list_elem_of_In.
Qed.

Lemma excluded_step fnmatch st m target_svc compose_name :
  sm_matchLabels m ≠ [] →
  resolve_target (default "?" (sm_name m)) (sm_matchLabels m) (loop_ctx st)
    = Some (target_svc, compose_name) →
  _is_excluded fnmatch compose_name (config_exclude (loop_ctx st)) = true →
  monitor_step fnmatch st m = st.
Proof.
  intros Hml Hres Hex. unfold monitor_step.
  destruct (sm_matchLabels m) as [|kv ml]; [done|].
  by rewrite Hres, Hex.
Qed.

(** C4: a monitor whose resolved compose name matches one of the configured
    exclude globs leaves the loop state as it found it: no scrape job, no
    CA mount and no warning, whatever its endpoints hold.  A run over a
    manifest list therefore ends in the same state with or without that
    monitor. *)
Theorem C4_exclusion_is_silent (fnmatch : string → string → bool)
    (st : Loop) (m : ServiceMonitor)
    (target_svc : option ServiceInfo) (compose_name pat : string) :
  let ctx := loop_ctx st in
  sm_matchLabels m ≠ [] →
  resolve_target (default "?" (sm_name m)) (sm_matchLabels m) ctx
    = Some (target_svc, compose_name) →
  pat ∈ config_exclude ctx →
  fnmatch compose_name pat = true →
  monitor_step fnmatch st m = st
  ∧ ∀ before after,
      monitors_loop fnmatch (before ++ m :: after) st
      = monitors_loop fnmatch (before ++ after) st.
Proof.
  intros ctx Hml Hres Hpat Hmatch.
  assert (_is_excluded fnmatch compose_name (config_exclude ctx) = true) as Hex
    by (apply is_excluded_spec; eauto).
  split; [by eapply excluded_step|].
  intros before after. unfold monitors_loop. rewrite !fold_left_app. simpl.
  f_equal.
  destruct (monitors_loop_appends fnmatch before st) as (ws & Happ & _).
  unfold monitors_loop in Happ. unfold appends in Happ.
  eapply excluded_step; [done| |]; rewrite Happ.
  - rewrite resolve_target_with_warnings. exact Hres.
  - exact Hex.
Qed.

(** *** Runs without a scrape job *)

Lemma final_warning_not_monitor_warning :
  ¬ monitor_warning "No resolvable ServiceMonitors found".
Proof. unfold monitor_warning. simpl. discriminate. Qed.

(** C3, as the code has it: a run over a non-empty manifest list that yields
    no scrape job returns no service, writes no configuration document and
    appends, after the warnings of the monitors, the warning
    [No resolvable ServiceMonitors found], which occurs exactly once among
    the appended warnings.  A run over the empty manifest list returns no
    service either and leaves the context untouched: it appends no warning
    at all. *)
Theorem C3_zero_jobs_no_service (fnmatch : string → string → bool)
    (self_spec : option PrometheusSpec) (manifests : list ServiceMonitor) (ctx : Ctx) :
  scrape_jobs (monitors_loop fnmatch manifests (start ctx)) = [] →
  let res := (_process_servicemonitors fnmatch self_spec manifests ctx).1 in
  let ctx' := (_process_servicemonitors fnmatch self_spec manifests ctx).2 in
  services res = []
  ∧ written ctx' = written ctx
  ∧ generated_cms ctx' = generated_cms ctx
  ∧ (manifests = [] → ctx' = ctx)
  ∧ (manifests ≠ [] →
     ∃ ws, warnings ctx' = warnings ctx ++ ws ++ ["No resolvable ServiceMonitors found"]
           ∧ Forall monitor_warning ws
           ∧ "No resolvable ServiceMonitors found" ∉ ws).
Proof.
  intros Hjobs res ctx'. subst res ctx'. destruct manifests as [|m ms].
  { repeat split; try done. }
  unfold _process_servicemonitors. rewrite Hjobs. cbn [fst snd].
  destruct (monitors_loop_appends fnmatch (m :: ms) (start ctx)) as (ws & Happ & HF).
  unfold appends in Happ. rewrite Happ. simpl.
  repeat split; try done.
  intros _. exists ws. split; [by rewrite app_assoc|]. split; [done|].
  intros Hin. eapply final_warning_not_monitor_warning.
  rewrite Forall_forall in HF. by apply HF.
Qed.

(** *** Scrape jobs: target host and TLS *)

Lemma truthy_spec s : Py.truthy s = true ↔ s ≠ "".
Proof. by destruct s. Qed.

Lemma not_truthy_spec s : Py.truthy s = false ↔ s = "".
Proof. by destruct s. Qed.

(** C5: an emitted scrape job has the single target [host:port].  The host
    is [<name>.<namespace>.svc.cluster.local], with the namespace of the
    label-matched service when that is known, else the namespace of the
    registry entry keyed by the resolved compose name; when neither is
    known the host is the bare resolved name. *)
Theorem C5_target_host (name : string) (idx cnt : nat) (ep : Endpoint)
    (svc_info : option ServiceInfo) (compose_name : string) (ctx ctx' : Ctx)
    (r : JobResult) :
  _build_scrape_job name idx cnt ep svc_info compose_name ctx = (Some r, ctx') →
  let ns_svc := from_option svc_namespace "" svc_info in
  let ns_reg :=
    from_option svc_namespace "" (assoc compose_name (services_by_selector ctx)) in
  ∃ host port,
    _resolve_port ep svc_info = Some port
    ∧ static_configs (jr_job r) = [[host +:+ ":" +:+ port_str port]]
    ∧ (ns_svc ≠ "" → host = compose_name +:+ "." +:+ ns_svc +:+ ".svc.cluster.local")
    ∧ (ns_svc = "" → ns_reg ≠ "" →
       host = compose_name +:+ "." +:+ ns_reg +:+ ".svc.cluster.local")
    ∧ (ns_svc = "" → ns_reg = "" → host = compose_name).
Proof.
  intros H ns_svc ns_reg. unfold _build_scrape_job in H.
  destruct (_resolve_port ep svc_info) as [port|]; [|by inversion H].
  set (ns := match svc_info with
             | Some svc => if Py.truthy (svc_namespace svc) then svc_namespace svc
                           else ns_reg
             | None => ns_reg
             end) in *.
  set (host := if Py.truthy ns then compose_name +:+ "." +:+ ns +:+ ".svc.cluster.local"
               else compose_name) in *.
  exists host, port. split; [done|]. split.
  { destruct (String.eqb _ "https").
    - destruct (_build_tls_config ep name ctx) as [[tls mounts] c].
      injection H as <- <-. reflexivity.
    - injection H as <- <-. reflexivity. }
  clear H. subst host ns. subst ns_svc. unfold ns_reg.
  destruct svc_info as [svc|]; simpl.
  - destruct (Py.truthy (svc_namespace svc)) eqn:Hsvc.
    + apply truthy_spec in Hsvc. rewrite (proj2 (truthy_spec _) Hsvc). done.
    + apply not_truthy_spec in Hsvc. repeat split; try done.
      * intros _ Hreg. by rewrite (proj2 (truthy_spec _) Hreg).
      * intros _ Hreg. by rewrite Hreg.
  - repeat split; try done.
    + intros _ Hreg. by rewrite (proj2 (truthy_spec _) Hreg).
    + intros _ Hreg. by rewrite Hreg.
Qed.

(** A [tls_config] key, when present, holds at least one field. *)
Lemma tls_config_not_empty name idx cnt ep svc_info compose_name ctx r ctx' t :
  _build_scrape_job name idx cnt ep svc_info compose_name ctx = (Some r, ctx') →
  tls_config (jr_job r) = Some t → ca_file t ≠ None ∨ server_name t ≠ None.
Proof.
  unfold _build_scrape_job.
  destruct (_resolve_port ep svc_info) as [port|]; [|by inversion 1].
  destruct (String.eqb _ "https").
  - destruct (_build_tls_config ep name ctx) as [[tls mounts] c].
    intros [= <- <-]. simpl. destruct (tls_truthy tls) eqn:Ht; [|done].
    intros [= <-]. unfold tls_truthy in Ht.
    destruct (ca_file tls), (server_name tls); try done; auto.
  - by intros [= <- <-].
Qed.

(** C6: an https endpoint (with a resolvable port) whose [tlsConfig] names
    a CA configmap missing from the known artifacts still yields its scrape
    job.  The job has no [ca_file] and contributes no mount, exactly one
    warning is appended, and the [tls_config] key is left out exactly when
    there is no server name to put in it; a [tls_config] key never holds an
    empty dict. *)
Theorem C6_missing_ca_configmap (name : string) (idx cnt : nat) (ep : Endpoint)
    (svc_info : option ServiceInfo) (compose_name : string) (ctx : Ctx)
    (tls : TlsConfig) (ref : ConfigMapRef) (cm : string) (port : PortVal) :
  default "http" (ep_scheme ep) = "https" →
  ep_tlsConfig ep = Some tls →
  tls_ca_configMap tls = Some ref →
  cm_ref_name ref = Some cm →
  cm ≠ "" →
  cm ∉ configmaps ctx →
  _resolve_port ep svc_info = Some port →
  ∃ r ctx',
    _build_scrape_job name idx cnt ep svc_info compose_name ctx = (Some r, ctx')
    ∧ warnings ctx'
      = warnings ctx
        ++ ["ServiceMonitor '" +:+ name +:+ "': CA configmap '" +:+ cm
            +:+ "' not found — TLS job generated without ca_file"]
    ∧ jr_ca_mounts r = []
    ∧ (∀ t, tls_config (jr_job r) = Some t → ca_file t = None)
    ∧ (default "" (tls_serverName tls) = "" → tls_config (jr_job r) = None)
    ∧ (default "" (tls_serverName tls) ≠ "" →
       tls_config (jr_job r)
       = Some {| ca_file := None; server_name := Some (default "" (tls_serverName tls)) |})
    ∧ (∀ t, tls_config (jr_job r) = Some t → ca_file t ≠ None ∨ server_name t ≠ None).
Proof.
  intros Hscheme Htls Href Hname Hcm Hnotin Hport.
  destruct (_build_scrape_job name idx cnt ep svc_info compose_name ctx)
    as [res ctx'] eqn:Hjob.
  pose proof Hjob as Hjob'.
  unfold _build_scrape_job in Hjob. rewrite Hport, Hscheme in Hjob. simpl in Hjob.
  unfold _build_tls_config in Hjob. rewrite Htls in Hjob. simpl in Hjob.
  rewrite Href in Hjob. simpl in Hjob. rewrite Hname in Hjob. simpl in Hjob.
  rewrite (proj2 (truthy_spec cm) Hcm) in Hjob.
  rewrite bool_decide_eq_false_2 in Hjob by done. simpl in Hjob.
  destruct res as [r|]; [|by inversion Hjob].
  exists r, ctx'. split; [done|].
  destruct (Py.truthy (default "" (tls_serverName tls))) eqn:Hsn;
    inversion Hjob; subst; simpl; repeat split; try done.
  - by intros t [= <-].
  - intros Hempty. apply truthy_spec in Hsn. done.
  - intros t [= <-]. by right.
  - intros Hne. apply not_truthy_spec in Hsn. done.
Qed.

(** *** Job names *)

Lemma str_int_inj z1 z2 : Py.str_int z1 = Py.str_int z2 → z1 = z2.
Proof.
  unfold Py.str_int. intros H.
  assert (∀ z, NilZero.int_of_string (NilZero.string_of_int (Z.to_int z))
               = Some (Z.to_int z)) as Hisi.
  { intros z. apply NilZero.isi; destruct z; simpl; try discriminate;
      intros [= Hp]; by apply Unsigned.to_uint_nonnil in Hp. }
  apply DecimalZ.to_int_inj.
  pose proof (Hisi z1) as H1. rewrite H, Hisi in H1. by injection H1.
Qed.

Lemma append_inj_l (p a b : string) : p +:+ a = p +:+ b → a = b.
Proof. induction p as [|c p IH]; simpl; [done|]. intros [= H]. by apply IH. Qed.

Lemma job_name_for_inj name cnt i j :
  cnt ≠ 1%nat → job_name_for name cnt i = job_name_for name cnt j → i = j.
Proof.
  unfold job_name_for. intros Hcnt. rewrite !decide_False by done.
  intros H. do 2 apply append_inj_l in H. apply str_int_inj in H. lia.
Qed.

Lemma build_scrape_job_name name idx cnt ep svc compose ctx :
  match _resolve_port ep svc with
  | Some _ => ∃ r, (_build_scrape_job name idx cnt ep svc compose ctx).1 = Some r
                   ∧ job_name (jr_job r) = job_name_for name cnt idx
  | None => (_build_scrape_job name idx cnt ep svc compose ctx).1 = None
  end.
Proof.
  unfold _build_scrape_job, job_name_for.
  destruct (_resolve_port ep svc) as [port|]; [|done].
  destruct (String.eqb _ "https").
  - destruct (_build_tls_config ep name ctx) as [[tls mounts] c].
    eexists. split; [done|]. simpl. by destruct (decide (cnt = 1%nat)); case_bool_decide.
  - eexists. split; [done|]. simpl. by destruct (decide (cnt = 1%nat)); case_bool_decide.
Qed.

Lemma endpoints_loop_jobs name cnt svc compose eps : ∀ idx st,
  ∃ new,
    scrape_jobs (endpoints_loop name cnt svc compose idx eps st) = scrape_jobs st ++ new
    ∧ job_name <$> new = job_name_for name cnt <$> emitted_indices svc idx eps.
Proof.
  induction eps as [|ep eps IH]; intros idx st; simpl.
  - exists []. by rewrite app_nil_r.
  - pose proof (build_scrape_job_name name idx cnt ep svc compose (loop_ctx st)) as Hj.
    destruct (_build_scrape_job name idx cnt ep svc compose (loop_ctx st))
      as [res ctx'].
    destruct (_resolve_port ep svc) as [port|]; simpl in Hj.
    + destruct Hj as (r & -> & Hname).
      match goal with
      | |- context [endpoints_loop _ _ _ _ _ _ ?s] =>
          destruct (IH (S idx) s) as (new & Hnew & Hnames)
      end.
      exists (jr_job r :: new). split.
      * cbn [scrape_jobs] in Hnew. by rewrite Hnew, <- app_assoc.
      * rewrite !fmap_cons. by rewrite Hname, Hnames.
    + subst res.
      match goal with
      | |- context [endpoints_loop _ _ _ _ _ _ ?s] =>
          destruct (IH (S idx) s) as (new & Hnew & Hnames)
      end.
      exists new. by simpl in *.
Qed.

Lemma emitted_indices_bounds svc eps : ∀ idx i,
  i ∈ emitted_indices svc idx eps → (idx ≤ i < idx + length eps)%nat.
Proof.
  induction eps as [|ep eps IH]; intros idx i; simpl.
  - by intros ?%elem_of_nil.
  - destruct (_resolve_port ep svc).
    + intros [->|Hin%IH]%elem_of_cons; lia.
    + intros Hin%IH. lia.
Qed.

Lemma emitted_indices_NoDup svc eps : ∀ idx, NoDup (emitted_indices svc idx eps).
Proof.
  induction eps as [|ep eps IH]; intros idx; simpl; [constructor|].
  destruct (_resolve_port ep svc); [|done].
  constructor; [|done]. intros Hin%emitted_indices_bounds. lia.
Qed.

Lemma named_jobs_NoDup name cnt idxs :
  NoDup idxs → (∀ i, i ∈ idxs → (i < cnt)%nat) →
  NoDup (job_name_for name cnt <$> idxs).
Proof.
  intros Hnd Hlt. destruct (decide (cnt = 1%nat)) as [->|Hcnt].
  - destruct idxs as [|i [|j idxs]]; simpl; try by repeat constructor.
    + repeat constructor. by intros ?%elem_of_nil.
    + assert (i = 0%nat) as -> by (specialize (Hlt i ltac:(by left)); lia).
      assert (j = 0%nat) as -> by (specialize (Hlt j ltac:(right; by left)); lia).
      apply NoDup_cons in Hnd as [Hnd _]. exfalso. apply Hnd. by left.
  - apply NoDup_fmap_2_strong; [|done]. intros i j _ _. by apply job_name_for_inj.
Qed.

(** C7, as the code has it: the jobs one monitor adds to the run are named
    after the positions of their endpoints.  With exactly one endpoint the
    job bears the monitor's name; with [N] endpoints, [N] other than one,
    the job of endpoint [i] is named [<monitor>-i], [i] counted from zero,
    for the endpoints whose port resolves.  The job names of one monitor
    are pairwise distinct.  (Nothing relates the names given by different
    monitors.) *)
Theorem C7_job_names_of_a_monitor (fnmatch : string → string → bool)
    (st : Loop) (m : ServiceMonitor) :
  let name := default "?" (sm_name m) in
  let eps := sm_endpoints m in
  let N := length eps in
  ∃ new idxs,
    scrape_jobs (monitor_step fnmatch st m) = scrape_jobs st ++ new
    ∧ job_name <$> new = job_name_for name N <$> idxs
    ∧ (∀ target_svc compose_name,
         sm_matchLabels m ≠ [] →
         resolve_target name (sm_matchLabels m) (loop_ctx st)
           = Some (target_svc, compose_name) →
         _is_excluded fnmatch compose_name (config_exclude (loop_ctx st)) = false →
         idxs = emitted_indices target_svc 0 eps)
    ∧ NoDup idxs
    ∧ (∀ i, i ∈ idxs → (i < N)%nat)
    ∧ (N = 1%nat → ∀ j, j ∈ new → job_name j = name)
    ∧ (N ≠ 1%nat → ∀ j, j ∈ new →
       ∃ i, (i < N)%nat ∧ job_name j = name +:+ "-" +:+ Py.str_int (Z.of_nat i))
    ∧ NoDup (job_name <$> new).
Proof.
  intros name eps N.
  assert (∃ new idxs,
    scrape_jobs (monitor_step fnmatch st m) = scrape_jobs st ++ new
    ∧ job_name <$> new = job_name_for name N <$> idxs
    ∧ (∀ target_svc compose_name,
         sm_matchLabels m ≠ [] →
         resolve_target name (sm_matchLabels m) (loop_ctx st)
           = Some (target_svc, compose_name) →
         _is_excluded fnmatch compose_name (config_exclude (loop_ctx st)) = false →
         idxs = emitted_indices target_svc 0 eps)
    ∧ NoDup idxs
    ∧ (∀ i, i ∈ idxs → (i < N)%nat)) as (new & idxs & Hjobs & Hnames & Hidx & Hnd & Hlt).
  { unfold monitor_step. fold name eps N.
    destruct (sm_matchLabels m) as [|kv ml].
    { exists [], []. simpl. rewrite app_nil_r. repeat split; try done.
      - constructor.
      - by intros i ?%elem_of_nil. }
    destruct (resolve_target name (kv :: ml) (loop_ctx st)) as [[svc compose]|].
    - destruct (_is_excluded fnmatch compose _) eqn:Hex.
      + exists [], []. rewrite app_nil_r. repeat split; try done.
        * intros ? ? _ [= <- <-] Hne. congruence.
        * constructor.
        * by intros i ?%elem_of_nil.
      + destruct (endpoints_loop_jobs name N svc compose eps 0%nat st)
          as (new & Hjobs & Hnames).
        exists new, (emitted_indices svc 0 eps). repeat split; try done.
        * by intros ? ? _ [= <- <-] _.
        * apply emitted_indices_NoDup.
        * intros i Hin%emitted_indices_bounds. unfold N. lia.
    - exists [], []. simpl. rewrite app_nil_r. repeat split; try done.
      + constructor.
      + by intros i ?%elem_of_nil. }
  exists new, idxs. repeat split; try done.
  - intros HN j Hj.
    assert (job_name j ∈ job_name <$> new) as Hin by (by apply list_elem_of_fmap_2).
    rewrite Hnames in Hin. apply list_elem_of_fmap in Hin as (i & -> & _).
    unfold job_name_for. by rewrite decide_True.
  - intros HN j Hj.
    assert (job_name j ∈ job_name <$> new) as Hin by (by apply list_elem_of_fmap_2).
    rewrite Hnames in Hin. apply list_elem_of_fmap in Hin as (i & -> & Hi).
    exists i. split; [by apply Hlt|]. unfold job_name_for. by rewrite decide_False.
  - rewrite Hnames. by apply named_jobs_NoDup.
Qed.

(** The claim of C7 that job names are distinct within the run fails: a
    monitor [web] with two endpoints and a monitor [web-0] with one both name
    a job [web-0]. *)
Lemma C7_job_names_clash_across_monitors :
  job_name <$> scrape_jobs
    (monitors_loop glob_fnmatch [web_monitor; web0_monitor] (start web_ctx))
  = ["web-0"; "web-1"; "web-0"]
  ∧ ¬ NoDup (job_name <$> scrape_jobs
               (monitors_loop glob_fnmatch [web_monitor; web0_monitor] (start web_ctx))).
Proof.
  assert (job_name <$> scrape_jobs
    (monitors_loop glob_fnmatch [web_monitor; web0_monitor] (start web_ctx))
    = ["web-0"; "web-1"; "web-0"]) as H by (by vm_compute).
  split; [done|]. rewrite H. intros Hnd.
  apply NoDup_cons in Hnd as [Hnotin _]. apply Hnotin. right. by left.
Qed.

(** *** The Prometheus service: image, retention, volumes *)

Lemma has_char_spec c s : Py.has_char c s = true ↔ c ∈ Py.chars s.
Proof.
  induction s as [|d s IH]; simpl.
  - split; [done|by intros ?%elem_of_nil].
  - rewrite orb_true_iff, IH, elem_of_cons, Ascii.eqb_eq. done.
Qed.

Lemma lstrip_v_spec s :
  (∃ k, s = leading_vs k +:+ Py.lstrip_v s)
  ∧ ∀ r, Py.lstrip_v s ≠ String "v" r.
Proof.
  induction s as [|c s [[k IHk] IHr]]; simpl.
  - split; [by exists 0%nat|done].
  - destruct (Ascii.eqb c "v") eqn:Hc.
    + apply Ascii.eqb_eq in Hc as ->. split; [|done].
      exists (S k).
      change (String "v" s = String "v" (leading_vs k +:+ Py.lstrip_v s)).
      by f_equal.
    + split; [by exists 0%nat|]. intros r [= -> _]. by rewrite Ascii.eqb_refl in Hc.
Qed.

Lemma index_prometheus_none crs :
  (_index_prometheus None crs).1 = None ↔ crs = [].
Proof. by destruct crs. Qed.

(** C8: the image of the Prometheus service is the image of the indexed
    spec, or [prom/prometheus] when that is unset.  When it holds no colon it
    gets a tag: [:v] followed by the version stripped of its leading [v]s if
    a version is set, [:latest] otherwise.  The retention is the spec's, or
    [15d].  One warning that states the image and the retention in use is
    appended when no Prometheus resource was indexed, and none otherwise. *)
Theorem C8_image_and_retention (self_spec : option PrometheusSpec)
    (mounts : list string) (ctx : Ctx) :
  let svc := (_build_prometheus_service self_spec mounts ctx).1 in
  let ctx' := (_build_prometheus_service self_spec mounts ctx).2 in
  let image0 := from_option prom_image "" self_spec in
  let base := if decide (image0 = "") then "prom/prometheus" else image0 in
  let version := from_option prom_version "" self_spec in
  let retention0 := from_option prom_retention "" self_spec in
  let retention := if decide (retention0 = "") then "15d" else retention0 in
  (version ≠ "" ∧ colon ∉ Py.chars base →
     cs_image svc = base +:+ ":v" +:+ Py.lstrip_v version)
  ∧ (version = "" ∧ colon ∉ Py.chars base → cs_image svc = base +:+ ":latest")
  ∧ (colon ∈ Py.chars base → cs_image svc = base)
  ∧ cs_command svc = ["--config.file=/etc/prometheus/prometheus.yml";
                      "--storage.tsdb.retention.time=" +:+ retention]
  ∧ (self_spec = None →
     warnings ctx'
     = warnings ctx
       ++ ["No Prometheus CR found in manifests — using defaults (image="
           +:+ cs_image svc +:+ ", retention=" +:+ retention +:+ ")"])
  ∧ (self_spec ≠ None → ctx' = ctx)
  ∧ (∀ crs, self_spec = (_index_prometheus None crs).1 → (self_spec = None ↔ crs = [])).
Proof.
  intros svc ctx' image0 base version retention0 retention.
  assert ((if Py.truthy image0 then image0 else "prom/prometheus") = base) as Hbase.
  { unfold base. destruct (decide (image0 = "")) as [->|Hne]; [done|].
    by rewrite (proj2 (truthy_spec _) Hne). }
  assert ((if Py.truthy retention0 then retention0 else "15d") = retention) as Hret.
  { unfold retention. destruct (decide (retention0 = "")) as [->|Hne]; [done|].
    by rewrite (proj2 (truthy_spec _) Hne). }
  assert (cs_image svc =
          if Py.truthy version && negb (Py.has_char colon base)
          then base +:+ ":v" +:+ Py.lstrip_v version
          else if negb (Py.has_char colon base) then base +:+ ":latest" else base)
    as Himg.
  { unfold svc, _build_prometheus_service. simpl. fold image0 version.
    by rewrite Hbase. }
  assert (colon ∉ Py.chars base ↔ Py.has_char colon base = false) as Hcolon.
  { rewrite <- has_char_spec. by destruct (Py.has_char colon base). }
  split_and!.
  - intros [Hv Hc]. rewrite Himg. apply Hcolon in Hc. rewrite Hc.
    by rewrite (proj2 (truthy_spec _) Hv).
  - intros [Hv Hc]. rewrite Himg. apply Hcolon in Hc. by rewrite Hc, Hv.
  - intros Hc. rewrite Himg. apply has_char_spec in Hc. rewrite Hc.
    by rewrite andb_false_r.
  - unfold svc, _build_prometheus_service. simpl. fold retention0. by rewrite Hret.
  - intros Hnone. unfold ctx', svc, _build_prometheus_service.
    subst self_spec. simpl. done.
  - intros Hsome. unfold ctx', _build_prometheus_service.
    by destruct self_spec.
  - intros crs ->. apply index_prometheus_none.
Qed.

Lemma dedup_filter (P : string → Prop) `{!∀ x, Decision (P x)} l :
  filter P (dedup_first_seen l) = dedup_first_seen (filter P l).
Proof.
  induction l as [|a l IH]; [done|]. simpl.
  rewrite !filter_cons. destruct (decide (P a)) as [Ha|Ha]; simpl.
  - f_equal. rewrite <- IH, !list_filter_filter. apply list_filter_iff. tauto.
  - rewrite <- IH, list_filter_filter. apply list_filter_iff.
    intros x. split; [tauto|]. intros Hx. split; [done|]. by intros ->.
Qed.

Lemma append_unseen_spec mounts : ∀ seen volumes,
  append_unseen mounts seen volumes
  = volumes ++ dedup_first_seen (filter (λ x, x ∉ seen) mounts).
Proof.
  induction mounts as [|m mounts IH]; intros seen volumes; simpl.
  - by rewrite app_nil_r.
  - rewrite filter_cons. case_bool_decide as Hin.
    + rewrite decide_False by tauto. apply IH.
    + rewrite decide_True by done. rewrite IH, <- app_assoc. simpl. do 2 f_equal.
      rewrite dedup_filter, list_filter_filter. f_equal.
      apply list_filter_iff. intros x.
      rewrite not_elem_of_union, not_elem_of_singleton. tauto.
Qed.

Lemma elem_of_dedup x l : x ∈ dedup_first_seen l ↔ x ∈ l.
Proof.
  induction l as [|a l IH]; [done|]. simpl.
  rewrite !elem_of_cons, list_elem_of_filter, IH.
  destruct (decide (x = a)); tauto.
Qed.

Lemma NoDup_dedup l : NoDup (dedup_first_seen l).
Proof.
  induction l as [|a l IH]; simpl; constructor.
  - rewrite list_elem_of_filter. intros [Hne _]. by apply Hne.
  - by apply NoDup_filter.
Qed.

Lemma dedup_snoc l x :
  dedup_first_seen (l ++ [x])
  = if decide (x ∈ l) then dedup_first_seen l else dedup_first_seen l ++ [x].
Proof.
  induction l as [|a l IH]; simpl.
  - done.
  - rewrite IH.
    destruct (decide (x ∈ l)) as [Hin|Hin];
      destruct (decide (x ∈ a :: l)) as [Hin'|Hin']; try done.
    + exfalso. apply Hin'. by right.
    + apply elem_of_cons in Hin' as [->|?]; [|done].
      rewrite filter_app, filter_cons, filter_nil.
      rewrite decide_False by tauto. by rewrite app_nil_r.
    + rewrite filter_app, filter_cons, filter_nil.
      rewrite decide_True; [done|]. intros ->. apply Hin'. by left.
Qed.

Lemma filter_eq_absent (x : string) l : x ∉ l → filter (λ y, y = x) l = [].
Proof.
  induction l as [|a l IH]; [done|]. intros Hnotin. rewrite filter_cons.
  rewrite decide_False by (intros ->; apply Hnotin; by left).
  apply IH. intros Hin. apply Hnotin. by right.
Qed.

Lemma once_in_NoDup (x : string) l :
  NoDup l → x ∈ l → length (filter (λ y, y = x) l) = 1%nat.
Proof.
  induction 1 as [|a l Hnotin Hnd IH]; [by intros ?%elem_of_nil|].
  rewrite filter_cons. intros [->|Hin]%elem_of_cons.
  - rewrite decide_True by done. simpl. by rewrite filter_eq_absent.
  - rewrite decide_False by (by intros <-). by apply IH.
Qed.

Lemma filter_unseen (seen : gset string) (l : list string) :
  (∀ x, x ∈ l → x ∉ seen) → filter (λ x, x ∉ seen) l = l.
Proof.
  induction l as [|a l IH]; [done|]. intros H.
  rewrite filter_cons, decide_True by (apply H; by left).
  rewrite IH; [done|]. intros x Hx. apply H. by right.
Qed.

(** The CA mount of an endpoint is a function of the configmap name and key
    it refers to. *)
Lemma tls_mount_of_name_key ep name ctx (cm key : string) :
  default "" ((ep_tlsConfig ep ≫= tls_ca_configMap) ≫= cm_ref_name) = cm →
  default "ca-certificates.crt" ((ep_tlsConfig ep ≫= tls_ca_configMap) ≫= cm_ref_key)
    = key →
  cm ≠ "" → cm ∈ configmaps ctx →
  (_build_tls_config ep name ctx).1.2 = [ca_mount_line cm key].
Proof.
  intros Hcm Hkey Hne Hin. unfold _build_tls_config. rewrite Hcm, Hkey.
  by rewrite (proj2 (truthy_spec cm) Hne), bool_decide_eq_true_2 by done.
Qed.

(** *** Ports *)

(** A port given explicitly resolves to a number or not at all. *)
Lemma resolve_port_explicit_numeric ep svc_info port_ref p :
  ep_port ep = Some port_ref → port_truthy port_ref = true →
  _resolve_port ep svc_info = Some p → ∃ n, p = PInt n.
Proof.
  intros Hep Htruthy. unfold _resolve_port. rewrite Hep. simpl. rewrite Htruthy. simpl.
  destruct port_ref as [n|s]; [intros [= <-]; eauto|].
  destruct (Py.isdigit s); [intros [= <-]; eauto|].
  destruct svc_info as [svc|]; [|done].
  induction (svc_ports svc) as [|sp ports IH]; simpl; [done|].
  case_bool_decide; [|done].
  destruct (target_or_port sp) as [[n|t]|]; [intros [= <-]; eauto| |done].
  destruct (Py.isdigit t); [intros [= <-]; eauto|done].
Qed.

(** An endpoint whose port does not resolve is skipped with one warning that
    names the monitor and the port token, and the loop goes on with the
    endpoints after it. *)
Lemma unresolved_endpoint_skipped name cnt svc_info compose_name idx ep rest st :
  _resolve_port ep svc_info = None →
  endpoints_loop name cnt svc_info compose_name idx (ep :: rest) st
  = endpoints_loop name cnt svc_info compose_name (S idx) rest
      (warn_loop ("ServiceMonitor '" +:+ name +:+ "': could not resolve port '"
                  +:+ port_str (default (PStr "(none)") (ep_port ep))
                  +:+ "' to a number, skipping endpoint") st).
Proof. intros H. simpl. unfold _build_scrape_job. by rewrite H. Qed.

(** C2 does not hold of the code: an endpoint without a port, on a service
    whose first port targets the named container port [http], is not
    skipped.  The port resolver hands back the name, no warning is issued,
    and the emitted job carries the target [api:http]. *)
Theorem C2_portless_endpoint_keeps_named_target :
  _resolve_port (plain_endpoint None) (Some named_target_service) = Some (PStr "http")
  ∧ (static_configs <$> scrape_jobs
       (monitor_step glob_fnmatch (start named_target_ctx) portless_monitor))
    = [[["api:http"]]]
  ∧ warnings (loop_ctx (monitor_step glob_fnmatch (start named_target_ctx) portless_monitor))
    = [].
Proof. by vm_compute. Qed.

(** *** Concrete runs *)

Lemma C1_witness :
  sm_matchLabels keycloak_monitor ≠ []
  ∧ _find_service (sm_matchLabels keycloak_monitor) keycloak_ctx = None
  ∧ _fallback_by_name "keycloak-metrics" [("app", "keycloak")] keycloak_ctx
    = Some "keycloak".
Proof.
  split; [done|]. split; [reflexivity|].
  refine (proj1 (proj1 (C1_name_fallback glob_fnmatch (start keycloak_ctx)
                          keycloak_monitor ltac:(done) ltac:(reflexivity))
                   ["keycloak-metrics"] "keycloak" [] ltac:(reflexivity) _ _)).
  - intros c' ->%list_elem_of_singleton. rewrite <- known_names_spec.
    apply (bool_decide_eq_false_1
             ("keycloak-metrics" ∈ known_names keycloak_ctx)). by vm_compute.
  - right. left. exists "keycloak-service". by vm_compute.
Defined.

Lemma C3_witness :
  scrape_jobs (monitors_loop glob_fnmatch [orphan_monitor] (start empty_ctx)) = []
  ∧ services (_process_servicemonitors glob_fnmatch None [orphan_monitor] empty_ctx).1 = []
  ∧ written (_process_servicemonitors glob_fnmatch None [orphan_monitor] empty_ctx).2 = [].
Proof.
  split; [by vm_compute|].
  destruct (C3_zero_jobs_no_service glob_fnmatch None [orphan_monitor] empty_ctx
              ltac:(by vm_compute)) as (Hs & Hw & _).
  split; [exact Hs|exact Hw].
Defined.

Lemma C4_witness :
  sm_matchLabels keycloak_monitor ≠ []
  ∧ resolve_target "keycloak-metrics" [("app", "keycloak")] keycloak_ctx
    = Some (None, "keycloak")
  ∧ "keycloak*" ∈ config_exclude keycloak_ctx
  ∧ glob_fnmatch "keycloak" "keycloak*" = true
  ∧ monitor_step glob_fnmatch (start keycloak_ctx) keycloak_monitor = start keycloak_ctx.
Proof.
  split; [done|]. split; [by vm_compute|]. split; [by left|]. split; [reflexivity|].
  exact (proj1 (C4_exclusion_is_silent glob_fnmatch (start keycloak_ctx) keycloak_monitor
                  None "keycloak" "keycloak*" ltac:(done) ltac:(by vm_compute)
                  ltac:(by left) ltac:(reflexivity))).
Defined.

(** The empty manifest list yields no scrape job, and yet no warning: the
    claim of C3 that such a run appends the warning fails there. *)
Lemma C3_empty_run_appends_no_warning :
  scrape_jobs (monitors_loop glob_fnmatch [] (start empty_ctx)) = []
  ∧ _process_servicemonitors glob_fnmatch None [] empty_ctx = (empty_result, empty_ctx)
  ∧ warnings (_process_servicemonitors glob_fnmatch None [] empty_ctx).2 = []
  ∧ "No resolvable ServiceMonitors found"
    ∉ warnings (_process_servicemonitors glob_fnmatch None [] empty_ctx).2.
Proof.
  split; [done|]. split; [done|]. split; [done|]. simpl. by intros ?%elem_of_nil.
Qed.

Lemma C5_witness :
  ∃ r, (_build_scrape_job "api" 0 1 (plain_endpoint (Some (PStr "http")))
          (Some api_service) "api" api_ctx).1 = Some r
       ∧ ∃ host port,
           static_configs (jr_job r) = [[host +:+ ":" +:+ port_str port]]
           ∧ host = "api" +:+ "." +:+ "prod" +:+ ".svc.cluster.local".
Proof.
  destruct (_build_scrape_job "api" 0 1 (plain_endpoint (Some (PStr "http")))
              (Some api_service) "api" api_ctx) as [[r|] ctx'] eqn:Hjob;
    [|by vm_compute in Hjob].
  exists r. split; [done|].
  destruct (C5_target_host _ _ _ _ _ _ _ _ _ Hjob) as (host & port & _ & Ht & Hsvc & _).
  exists host, port. split; [exact Ht|]. by apply Hsvc.
Defined.

Lemma C6_witness :
  default "http" (ep_scheme https_endpoint) = "https"
  ∧ ("internal-ca" ∉ configmaps api_ctx)
  ∧ _resolve_port https_endpoint (Some api_service) = Some (PInt 8080)
  ∧ ∃ r ctx',
      _build_scrape_job "api" 0 1 https_endpoint (Some api_service) "api" api_ctx
        = (Some r, ctx')
      ∧ length (warnings ctx') = 1%nat
      ∧ jr_ca_mounts r = []
      ∧ tls_config (jr_job r) = None.
Proof.
  split; [done|]. split; [by apply not_elem_of_empty|]. split; [reflexivity|].
  destruct (C6_missing_ca_configmap "api" 0 1 https_endpoint (Some api_service) "api"
              api_ctx _ _ "internal-ca" (PInt 8080)
              eq_refl eq_refl eq_refl eq_refl ltac:(done)
              ltac:(by apply not_elem_of_empty) eq_refl)
    as (r & ctx' & Hjob & Hw & Hm & _ & Hnone & _).
  exists r, ctx'. split; [exact Hjob|]. split; [by rewrite Hw|].
  split; [exact Hm|]. by apply Hnone.
Defined.

(** Scenario B: no Prometheus resource, one resolvable monitor. *)
Example scenario_B :
  let '(res, ctx') := _process_servicemonitors glob_fnmatch None [api_monitor] api_ctx in
  (cs_image <$> assoc "prometheus" (services res)) = Some "prom/prometheus:latest"
  ∧ warnings ctx'
    = ["No Prometheus CR found in manifests — using defaults (image=prom/prometheus:latest, retention=15d)"]
  ∧ generated_cms ctx' = {[ "prometheus-scrape-config" ]}.
Proof. vm_compute. split_and!; reflexivity. Qed.

(** Scenario C: the only monitor resolves to nothing. *)
Example scenario_C :
  _process_servicemonitors glob_fnmatch None [orphan_monitor] empty_ctx
  = (empty_result,
     with_warnings
       ["ServiceMonitor 'orphan': no K8s Service matches labels {'app': 'orphan'}, skipping";
        "No resolvable ServiceMonitors found"] empty_ctx).
Proof. by vm_compute. Qed.

(** Scenario D: an https endpoint whose CA configmap is unknown. *)
Example scenario_D :
  let '(res, ctx') :=
    _build_scrape_job "api" 0 1 https_endpoint (Some api_service) "api" api_ctx in
  (tls_config ∘ jr_job <$> res) = Some None
  ∧ (static_configs ∘ jr_job <$> res) = Some [["api.prod.svc.cluster.local:8080"]]
  ∧ warnings ctx'
    = ["ServiceMonitor 'api': CA configmap 'internal-ca' not found — TLS job generated without ca_file"].
Proof. by vm_compute. Qed.

(** The registry entry added for Prometheus at the end of a run. *)
Example register_prometheus_entry :
  let ctx :=
    register_prometheus
      {| config_exclude := []; warnings := []; alias_map := ∅;
         services_by_selector :=
           [("kube-prometheus",
             {| svc_name := "kube-prometheus"; svc_namespace := "mon";
                svc_selector := {[ "app" := "prometheus" ]}; svc_type := "ClusterIP";
                svc_ports := [ {| sp_name := Some "web"; sp_port := Some (PInt 9090);
                                  sp_targetPort := None |} ] |})];
         configmaps := ∅; generated_cms := ∅; output_dir := "out"; written := [] |} in
  alias_map ctx !! "kube-prometheus" = Some "prometheus"
  ∧ (svc_selector <$> assoc "prometheus" (services_by_selector ctx)) = Some ∅.
Proof. by vm_compute. Qed.

(** ** Further properties of the provider *)

(** *** The label match in full *)

Lemma qualifies_spec ml s :
  qualifies ml s
  ↔ bool_decide (svc_selector s = ∅) = false ∧ labels_match (svc_selector s) ml = true.
Proof.
  unfold qualifies. rewrite labels_match_spec, bool_decide_eq_false. done.
Qed.

Lemma find_service_in_first ml pre k s post :
  (∀ e, e ∈ pre → ¬ qualifies ml e.2) → qualifies ml s →
  find_service_in ml (pre ++ (k, s) :: post) = Some s.
Proof.
  intros Hpre [Hsel Hlab]%qualifies_spec.
  induction pre as [|[k' s'] pre IH]; simpl.
  - by rewrite Hsel, Hlab.
  - assert (¬ qualifies ml s') as Hno by (apply (Hpre (k', s')); by left).
    rewrite qualifies_spec in Hno.
    destruct (bool_decide (svc_selector s' = ∅)) eqn:He.
    + apply IH. intros e He'. apply Hpre. by right.
    + destruct (labels_match (svc_selector s') ml) eqn:Hl; [by destruct Hno|].
      apply IH. intros e He'. apply Hpre. by right.
Qed.

Lemma find_service_in_None ml svcs :
  find_service_in ml svcs = None ↔ ∀ e, e ∈ svcs → ¬ qualifies ml e.2.
Proof.
  induction svcs as [|[k s] svcs IH]; simpl.
  - split; [by intros _ e ?%elem_of_nil|done].
  - destruct (bool_decide (svc_selector s = ∅)) eqn:He.
    + rewrite IH. split.
      * intros H e [->|Hin]%elem_of_cons; [|by apply H].
        rewrite qualifies_spec. simpl. rewrite He. by intros [? _].
      * intros H e Hin. apply H. by right.
    + destruct (labels_match (svc_selector s) ml) eqn:Hl.
      * split; [done|]. intros H. exfalso. apply (H (k, s)); [by left|].
        by apply qualifies_spec.
      * rewrite IH. split.
        -- intros H e [->|Hin]%elem_of_cons; [|by apply H].
           rewrite qualifies_spec. simpl. rewrite Hl. by intros [_ ?].
        -- intros H e Hin. apply H. by right.
Qed.

(** X1: [_find_service] returns the first registry entry, in registry order,
    whose selector is not empty and holds every label of [matchLabels] with
    the same value; labels the service has beyond those do not matter.  It
    returns [None] exactly when no entry is of that kind. *)
Theorem X1_label_match_first_qualifying (ml : list (string * string)) (ctx : Ctx) :
  (∀ pre k s post,
     services_by_selector ctx = pre ++ (k, s) :: post →
     (∀ e, e ∈ pre → ¬ qualifies ml e.2) →
     qualifies ml s →
     _find_service ml ctx = Some s)
  ∧ (_find_service ml ctx = None
     ↔ ∀ e, e ∈ services_by_selector ctx → ¬ qualifies ml e.2)
  ∧ (∀ s extra,
       _find_service ml ctx = Some s →
       (∀ k, k ∈ dom extra → k ∉ ml.*1) →
       qualifies ml
         {| svc_name := svc_name s; svc_namespace := svc_namespace s;
            svc_selector := extra ∪ svc_selector s; svc_type := svc_type s;
            svc_ports := svc_ports s |}).
Proof.
  split_and!.
  - intros pre k s post Hreg Hpre Hq. unfold _find_service. rewrite Hreg.
    by apply find_service_in_first.
  - apply find_service_in_None.
  - intros s extra Hfind Hextra.
    apply find_service_in_Some in Hfind as (Hne & Hlab & _).
    rewrite labels_match_spec in Hlab. split; simpl.
    + intros Hempty. apply Hne. apply map_eq. intros i. rewrite lookup_empty.
      apply (f_equal (λ m, m !! i)) in Hempty. rewrite lookup_empty in Hempty.
      by apply lookup_union_None in Hempty as [_ ?].
    + intros k v Hin. rewrite lookup_union_r; [by apply Hlab|].
      apply not_elem_of_dom. intros Hk. apply (Hextra k Hk).
      apply list_elem_of_fmap. by exists (k, v).
Qed.

(** *** The Service of Prometheus and its registration *)

Lemma append_cons c (p r : string) : String c p +:+ r = String c (p +:+ r).
Proof. reflexivity. Qed.

Lemma prefix_spec p s : String.prefix p s = true ↔ ∃ r, s = p +:+ r.
Proof.
  revert s. induction p as [|c p IH]; intros s.
  - split; [by exists s|by destruct s].
  - destruct s as [|d s]; [split; [done|by intros [r ?]]|].
    cbn [String.prefix]. setoid_rewrite append_cons.
    destruct (ascii_dec c d) as [->|Hne].
    + rewrite IH. split; intros [r Hr]; exists r.
      * by rewrite Hr.
      * by injection Hr.
    + split; [done|]. intros [r [= ? _]]. done.
Qed.

Lemma contains_spec n h : Py.contains n h = true ↔ ∃ a b, h = a +:+ n +:+ b.
Proof.
  induction h as [|c h IH]; cbn [Py.contains].
  - rewrite orb_false_r, prefix_spec. split.
    + intros [r Hr]. by exists "", r.
    + intros (a & b & Hab). destruct a; [by exists b|done].
  - rewrite orb_true_iff, IH, prefix_spec. split.
    + intros [[r Hr]|(a & b & Hab)].
      * by exists "", r.
      * exists (String c a), b. rewrite append_cons. by rewrite Hab.
    + intros (a & b & Hab). destruct a as [|c' a].
      * left. by exists b.
      * right. exists a, b. rewrite append_cons in Hab. by injection Hab.
Qed.

Lemma exposes_9090_spec ports :
  exposes_9090 ports = true
  ↔ ∃ p, p ∈ ports
         ∧ (sp_port p = Some (PInt 9090) ∨ sp_targetPort p = Some (PInt 9090)).
Proof.
  unfold exposes_9090. rewrite existsb_exists. split.
  - intros (p & Hin & H). exists p. split; [by apply list_elem_of_In|].
    apply orb_true_iff in H as [H|H]; apply bool_decide_eq_true in H; auto.
  - intros (p & Hin & H). exists p. split; [by apply list_elem_of_In|].
    apply orb_true_iff. destruct H as [H|H]; [left|right]; by apply bool_decide_eq_true.
Qed.

Lemma exposes_prometheus_spec k s :
  exposes_prometheus k s
  ↔ Py.contains "prometheus" k && negb (String.eqb k "prometheus")
    && exposes_9090 (svc_ports s) = true.
Proof.
  unfold exposes_prometheus.
  rewrite !andb_true_iff, contains_spec, exposes_9090_spec, negb_true_iff,
    String.eqb_neq. tauto.
Qed.

Lemma find_prometheus_in_Some svcs s :
  find_prometheus_in svcs = Some s → ∃ k, (k, s) ∈ svcs ∧ exposes_prometheus k s.
Proof.
  induction svcs as [|[k s'] svcs IH]; simpl; [done|].
  destruct (_ && _ && _) eqn:Hc.
  - intros [= <-]. exists k. split; [by left|]. by apply exposes_prometheus_spec.
  - intros (k' & Hin & H)%IH. exists k'. split; [by right|done].
Qed.

Lemma find_prometheus_in_None svcs :
  find_prometheus_in svcs = None ↔ ∀ k s, (k, s) ∈ svcs → ¬ exposes_prometheus k s.
Proof.
  induction svcs as [|[k s'] svcs IH]; simpl.
  - split; [by intros _ k s ?%elem_of_nil|done].
  - destruct (_ && _ && _) eqn:Hc.
    + split; [done|]. intros H. exfalso. apply (H k s'); [by left|].
      by apply exposes_prometheus_spec.
    + rewrite IH. split.
      * intros H k0 s0 [[= -> ->]|Hin]%elem_of_cons; [|by apply H].
        rewrite exposes_prometheus_spec. by rewrite Hc.
      * intros H k0 s0 Hin. apply H. by right.
Qed.

(** X2: the service [_find_prometheus_k8s_service] returns is an entry of the
    registry whose key contains [prometheus], is not [prometheus] itself, and
    which has a port with 9090 as port or target port; there is none
    exactly when the registry has no such entry.  The entry registered under
    the key [prometheus] is never the one found. *)
Theorem X2_prometheus_service_found (ctx : Ctx) :
  (∀ s, _find_prometheus_k8s_service ctx = Some s →
        ∃ k, (k, s) ∈ services_by_selector ctx ∧ exposes_prometheus k s)
  ∧ (_find_prometheus_k8s_service ctx = None
     ↔ ∀ k s, (k, s) ∈ services_by_selector ctx → ¬ exposes_prometheus k s)
  ∧ (∀ s, ¬ exposes_prometheus "prometheus" s).
Proof.
  split_and!.
  - intros s. apply find_prometheus_in_Some.
  - apply find_prometheus_in_None.
  - intros s (_ & Hne & _). done.
Qed.

Lemma find_prometheus_in_snoc_key svcs x :
  find_prometheus_in (svcs ++ [("prometheus", x)]) = find_prometheus_in svcs.
Proof.
  induction svcs as [|[k s] svcs IH]; [done|]. simpl. by rewrite IH.
Qed.

Lemma assoc_app_l {A} k (l l' : list (string * A)) v :
  assoc k l = Some v → assoc k (l ++ l') = Some v.
Proof.
  induction l as [|[k' v'] l IH]; simpl; [done|]. by destruct (String.eqb k k').
Qed.

Lemma assoc_snoc_new {A} k (l : list (string * A)) v :
  assoc k l = None → assoc k (l ++ [(k, v)]) = Some v.
Proof.
  induction l as [|[k' v'] l IH]; simpl.
  - by rewrite String.eqb_refl.
  - by destruct (String.eqb k k').
Qed.

Lemma register_prometheus_idempotent ctx :
  register_prometheus (register_prometheus ctx) = register_prometheus ctx.
Proof.
  unfold register_prometheus at 2 3.
  destruct (_find_prometheus_k8s_service ctx) as [k8s|] eqn:Hfind.
  - unfold register_prometheus, _find_prometheus_k8s_service in *. simpl.
    destruct (assoc "prometheus" (services_by_selector ctx)) as [e|] eqn:Hassoc.
    + rewrite Hfind, Hassoc. simpl. by rewrite insert_insert_eq.
    + rewrite find_prometheus_in_snoc_key, Hfind. simpl.
      rewrite (assoc_snoc_new _ _ _ Hassoc). by rewrite insert_insert_eq.
  - unfold register_prometheus. by rewrite Hfind.
Qed.

(** X3: the registration of Prometheus at the end of a run is idempotent,
    it only ever appends to the registry (no entry is replaced or dropped,
    also not an entry already keyed [prometheus]), it changes the alias
    table at the name of the found service only, and it leaves the
    warnings, the configmaps and the written files alone.  Without a
    service that exposes Prometheus it does nothing. *)
Theorem X3_registration_appends_once (ctx : Ctx) :
  register_prometheus (register_prometheus ctx) = register_prometheus ctx
  ∧ (∀ k s, assoc k (services_by_selector ctx) = Some s →
            assoc k (services_by_selector (register_prometheus ctx)) = Some s)
  ∧ (∃ added, services_by_selector (register_prometheus ctx)
              = services_by_selector ctx ++ added
              ∧ (length added ≤ 1)%nat
              ∧ ∀ e, e ∈ added → e.1 = "prometheus" ∧ svc_selector e.2 = ∅)
  ∧ (∀ k, (∀ s, _find_prometheus_k8s_service ctx = Some s → k ≠ svc_name s) →
          alias_map (register_prometheus ctx) !! k = alias_map ctx !! k)
  ∧ warnings (register_prometheus ctx) = warnings ctx
  ∧ configmaps (register_prometheus ctx) = configmaps ctx
  ∧ generated_cms (register_prometheus ctx) = generated_cms ctx
  ∧ written (register_prometheus ctx) = written ctx
  ∧ (_find_prometheus_k8s_service ctx = None → register_prometheus ctx = ctx).
Proof.
  split; [apply register_prometheus_idempotent|].
  unfold register_prometheus.
  destruct (_find_prometheus_k8s_service ctx) as [k8s|] eqn:Hfind; simpl.
  - destruct (assoc "prometheus" (services_by_selector ctx)) as [e|] eqn:Hassoc.
    + split_and!; try done.
      * exists []. rewrite app_nil_r. split_and!; [done|simpl; lia|].
        by intros e' ?%elem_of_nil.
      * intros k Hk. apply lookup_insert_ne. intros <-. by apply (Hk k8s).
    + split_and!; try done.
      * intros k s Hs. by apply assoc_app_l.
      * eexists [_]. split_and!; [done|simpl; lia|].
        by intros e' ->%list_elem_of_singleton.
      * intros k Hk. apply lookup_insert_ne. intros <-. by apply (Hk k8s).
  - split_and!; try done.
    exists []. rewrite app_nil_r. split_and!; [done|simpl; lia|].
    by intros e' ?%elem_of_nil.
Qed.

(** *** Ports: numbers, digit strings and names *)







Lemma named_port_no_match s ports :
  (∀ q, q ∈ ports → sp_name q ≠ Some s) → named_port s ports = None.
Proof.
  induction ports as [|q ports IH]; [done|]. intros H. simpl.
  rewrite bool_decide_eq_false_2 by (apply H; by left).
  apply IH. intros q' Hin. apply H. by right.
Qed.

Lemma named_port_first s pre sp post :
  (∀ q, q ∈ pre → sp_name q ≠ Some s) → sp_name sp = Some s →
  named_port s (pre ++ sp :: post) = named_port s [sp].
Proof.
  intros Hpre Hsp. induction pre as [|q pre IH]; simpl.
  - by rewrite !bool_decide_eq_true_2.
  - rewrite bool_decide_eq_false_2 by (apply Hpre; by left).
    rewrite IH; [|intros q' Hin; apply Hpre; by right].
    simpl. by rewrite bool_decide_eq_true_2.
Qed.



(** *** What the loop adds *)

Lemma build_tls_config_pure ep name ctx :
  ∃ tls mounts added,
    Forall monitor_warning added
    ∧ Forall (known_ca_mount ctx) mounts
    ∧ ∀ ws, _build_tls_config ep name (with_warnings ws ctx)
            = (tls, mounts, with_warnings (ws ++ added) ctx).
Proof.
  unfold _build_tls_config. cbn [configmaps with_warnings].
  set (cm := default "" ((ep_tlsConfig ep ≫= tls_ca_configMap) ≫= cm_ref_name)).
  set (key := default "ca-certificates.crt"
                ((ep_tlsConfig ep ≫= tls_ca_configMap) ≫= cm_ref_key)).
  destruct (Py.truthy cm) eqn:Hcm; [destruct (bool_decide (cm ∈ configmaps ctx)) eqn:Hin|];
    simpl.
  - eexists _, [ca_mount_line cm key], []. split; [constructor|]. split.
    + repeat constructor. exists cm, key. apply bool_decide_eq_true in Hin.
      apply truthy_spec in Hcm. split_and!; done.
    + intros ws. by rewrite app_nil_r.
  - eexists _, [], [_]. split; [|split; [constructor|done]].
    repeat constructor. apply monitor_warning_intro.
  - eexists _, [], []. split; [constructor|]. split; [constructor|].
    intros ws. by rewrite app_nil_r.
Qed.

Lemma build_scrape_job_pure name idx cnt ep svc compose ctx :
  ∃ res added,
    Forall monitor_warning added
    ∧ (∀ r, res = Some r → Forall (known_ca_mount ctx) (jr_ca_mounts r))
    ∧ ∀ ws, _build_scrape_job name idx cnt ep svc compose (with_warnings ws ctx)
            = (res, with_warnings (ws ++ added) ctx).
Proof.
  unfold _build_scrape_job. cbn [services_by_selector with_warnings].
  destruct (_resolve_port ep svc) as [port|].
  - destruct (String.eqb (default "http" (ep_scheme ep)) "https").
    + destruct (build_tls_config_pure ep name ctx) as (tls & mounts & added & HF & HM & H).
      eexists _, added. split; [done|]. split; cycle 1.
      * intros ws. rewrite H. reflexivity.
      * by intros r [= <-].
    + eexists _, []. split; [constructor|]. split; cycle 1.
      * intros ws. rewrite app_nil_r. reflexivity.
      * intros r [= <-]. constructor.
  - eexists None, [_]. split; [|split; [done|done]].
    repeat constructor. apply monitor_warning_intro.
Qed.

Lemma endpoints_loop_pure name cnt svc compose ctx eps : ∀ idx,
  ∃ jobs mounts added,
    Forall monitor_warning added
    ∧ Forall (known_ca_mount ctx) mounts
    ∧ ∀ ws j0 m0,
        endpoints_loop name cnt svc compose idx eps
          {| scrape_jobs := j0; ca_mounts := m0; loop_ctx := with_warnings ws ctx |}
        = {| scrape_jobs := j0 ++ jobs; ca_mounts := m0 ++ mounts;
             loop_ctx := with_warnings (ws ++ added) ctx |}.
Proof.
  induction eps as [|ep eps IH]; intros idx.
  - exists [], [], []. split; [constructor|]. split; [constructor|].
    intros ws j0 m0. simpl. by rewrite !app_nil_r.
  - destruct (build_scrape_job_pure name idx cnt ep svc compose ctx)
      as (res & a1 & HF1 & HM1 & H1).
    destruct (IH (S idx)) as (jobs & mounts & a2 & HF2 & HM2 & H2).
    destruct res as [r|].
    + exists (jr_job r :: jobs), (jr_ca_mounts r ++ mounts), (a1 ++ a2).
      split; [by apply Forall_app|]. split; [apply Forall_app; split; auto|].
      intros ws j0 m0. cbn [endpoints_loop loop_ctx]. rewrite H1.
      cbn [scrape_jobs ca_mounts]. rewrite H2.
      by rewrite <- !app_assoc.
    + exists jobs, mounts, (a1 ++ a2).
      split; [by apply Forall_app|]. split; [done|].
      intros ws j0 m0. cbn [endpoints_loop loop_ctx]. rewrite H1.
      cbn [scrape_jobs ca_mounts]. rewrite H2.
      by rewrite <- !app_assoc.
Qed.

Lemma monitor_step_pure fnmatch m ctx :
  ∃ jobs mounts added,
    Forall monitor_warning added
    ∧ Forall (known_ca_mount ctx) mounts
    ∧ ∀ ws j0 m0,
        monitor_step fnmatch
          {| scrape_jobs := j0; ca_mounts := m0; loop_ctx := with_warnings ws ctx |} m
        = {| scrape_jobs := j0 ++ jobs; ca_mounts := m0 ++ mounts;
             loop_ctx := with_warnings (ws ++ added) ctx |}.
Proof.
  unfold monitor_step. cbn [loop_ctx config_exclude with_warnings].
  destruct (sm_matchLabels m) as [|kv ml] eqn:Hml.
  { eexists [], [], [_]. split_and!; cycle 2.
    - intros ws j0 m0. unfold warn_loop. simpl. rewrite !app_nil_r. reflexivity.
    - repeat constructor. apply monitor_warning_intro.
    - constructor. }
  destruct (resolve_target (default "?" (sm_name m)) (kv :: ml) ctx)
    as [[svc compose]|] eqn:Hres.
  - destruct (_is_excluded fnmatch compose (config_exclude ctx)) eqn:Hex.
    + exists [], [], []. split; [constructor|]. split; [constructor|].
      intros ws j0 m0. rewrite resolve_target_with_warnings, Hres, Hex.
      by rewrite !app_nil_r.
    + destruct (endpoints_loop_pure (default "?" (sm_name m))
                  (length (sm_endpoints m)) svc compose ctx (sm_endpoints m) 0%nat)
        as (jobs & mounts & added & HF & HM & H).
      exists jobs, mounts, added. split; [done|]. split; [done|].
      intros ws j0 m0. rewrite resolve_target_with_warnings, Hres, Hex. apply H.
  - eexists [], [], [_]. split_and!; cycle 2.
    + intros ws j0 m0. rewrite resolve_target_with_warnings, Hres.
      unfold warn_loop. simpl. rewrite !app_nil_r. reflexivity.
    + repeat constructor. apply monitor_warning_intro.
    + constructor.
Qed.

Lemma monitors_loop_pure fnmatch ctx ms :
  ∃ jobs mounts added,
    Forall monitor_warning added
    ∧ Forall (known_ca_mount ctx) mounts
    ∧ ∀ ws j0 m0,
        monitors_loop fnmatch ms
          {| scrape_jobs := j0; ca_mounts := m0; loop_ctx := with_warnings ws ctx |}
        = {| scrape_jobs := j0 ++ jobs; ca_mounts := m0 ++ mounts;
             loop_ctx := with_warnings (ws ++ added) ctx |}.
Proof.
  induction ms as [|m ms IH].
  - exists [], [], []. split; [constructor|]. split; [constructor|].
    intros ws j0 m0. simpl. by rewrite !app_nil_r.
  - destruct (monitor_step_pure fnmatch m ctx) as (j1 & m1 & a1 & HF1 & HM1 & H1).
    destruct IH as (j2 & m2 & a2 & HF2 & HM2 & H2).
    exists (j1 ++ j2), (m1 ++ m2), (a1 ++ a2).
    split; [by apply Forall_app|]. split; [by apply Forall_app|].
    intros ws j0 m0. unfold monitors_loop in *. cbn [fold_left]. rewrite H1, H2.
    by rewrite <- !app_assoc.
Qed.

Lemma loop_state_eta st :
  st = {| scrape_jobs := scrape_jobs st; ca_mounts := ca_mounts st;
          loop_ctx := with_warnings (warnings (loop_ctx st)) (loop_ctx st) |}.
Proof. destruct st as [j m c]. simpl. by rewrite with_warnings_id. Qed.

Lemma dropped_monitor_step fnmatch m ctx :
  sm_matchLabels m = []
  ∨ resolve_target (default "?" (sm_name m)) (sm_matchLabels m) ctx = None →
  ∃ w, monitor_warning w
       ∧ ∀ ws j0 m0,
           monitor_step fnmatch
             {| scrape_jobs := j0; ca_mounts := m0; loop_ctx := with_warnings ws ctx |} m
           = {| scrape_jobs := j0; ca_mounts := m0;
                loop_ctx := with_warnings (ws ++ [w]) ctx |}.
Proof.
  intros H. unfold monitor_step. cbn [loop_ctx].
  destruct (sm_matchLabels m) as [|kv ml] eqn:Hml.
  - eexists. split; [apply monitor_warning_intro|]. intros ws j0 m0. reflexivity.
  - destruct H as [H|H]; [done|].
    eexists. split; [apply monitor_warning_intro|]. intros ws j0 m0.
    rewrite resolve_target_with_warnings, H. reflexivity.
Qed.

(** X9: a monitor without [matchLabels], or one that neither the labels nor
    the names resolve, costs the run one warning and nothing else: the scrape
    jobs and the CA mounts of the run are those of the run without that
    monitor, and so are its warnings but for the one about it, which stands
    where the monitor stood. *)
Theorem X9_unresolved_monitor_costs_one_warning (fnmatch : string → string → bool)
    (st : Loop) (m : ServiceMonitor) (before after : list ServiceMonitor) :
  sm_matchLabels m = []
  ∨ resolve_target (default "?" (sm_name m)) (sm_matchLabels m) (loop_ctx st) = None →
  let with_m := monitors_loop fnmatch (before ++ m :: after) st in
  let without := monitors_loop fnmatch (before ++ after) st in
  scrape_jobs with_m = scrape_jobs without
  ∧ ca_mounts with_m = ca_mounts without
  ∧ ∃ ws1 w ws2,
      monitor_warning w
      ∧ warnings (loop_ctx with_m) = warnings (loop_ctx st) ++ ws1 ++ w :: ws2
      ∧ warnings (loop_ctx without) = warnings (loop_ctx st) ++ ws1 ++ ws2.
Proof.
  intros H with_m without. subst with_m without.
  destruct (dropped_monitor_step fnmatch m (loop_ctx st) H) as (w & Hw & Hstep).
  destruct (monitors_loop_pure fnmatch (loop_ctx st) before)
    as (jb & mb & ab & _ & _ & Hb).
  destruct (monitors_loop_pure fnmatch (loop_ctx st) after)
    as (ja & ma & aa & _ & _ & Ha).
  destruct st as [j0 m0 c]. cbn [loop_ctx] in *.
  replace {| scrape_jobs := j0; ca_mounts := m0; loop_ctx := c |}
    with {| scrape_jobs := j0; ca_mounts := m0;
            loop_ctx := with_warnings (warnings c) c |}
    by (by rewrite with_warnings_id).
  unfold monitors_loop in *. rewrite !fold_left_app. cbn [fold_left].
  rewrite Hb, Hstep, !Ha. cbn [scrape_jobs ca_mounts loop_ctx warnings with_warnings].
  split; [done|]. split; [done|].
  exists ab, w, aa. split; [done|]. by rewrite <- !app_assoc.
Qed.

Lemma X9_witness :
  resolve_target (default "?" (sm_name orphan_monitor)) (sm_matchLabels orphan_monitor)
    (loop_ctx (start api_ctx)) = None
  ∧ scrape_jobs (monitors_loop glob_fnmatch ([api_monitor] ++ orphan_monitor :: [api_monitor])
                   (start api_ctx))
    = scrape_jobs (monitors_loop glob_fnmatch ([api_monitor] ++ [api_monitor])
                     (start api_ctx)).
Proof.
  split; [reflexivity|].
  exact (proj1 (X9_unresolved_monitor_costs_one_warning glob_fnmatch (start api_ctx)
                  orphan_monitor [api_monitor] [api_monitor] (or_intror eq_refl))).
Defined.

(** *** The run that yields scrape jobs *)

Lemma loop_from_start fnmatch ms ctx :
  ∃ jobs mounts added,
    Forall monitor_warning added
    ∧ Forall (known_ca_mount ctx) mounts
    ∧ monitors_loop fnmatch ms (start ctx)
      = {| scrape_jobs := jobs; ca_mounts := mounts;
           loop_ctx := with_warnings (warnings ctx ++ added) ctx |}.
Proof.
  destruct (monitors_loop_pure fnmatch ctx ms) as (jobs & mounts & added & HF & HM & H).
  exists jobs, mounts, added. split; [done|]. split; [done|].
  unfold start. rewrite <- (with_warnings_id ctx) at 1. by rewrite H.
Qed.

Lemma volumes_spec self_spec mounts ctx :
  cs_volumes (_build_prometheus_service self_spec mounts ctx).1
  = scrape_config_mount :: dedup_first_seen mounts.
Proof.
  unfold _build_prometheus_service. cbn [fst cs_volumes].
  rewrite append_unseen_spec, filter_unseen; [done|].
  intros x _. apply not_elem_of_empty.
Qed.

(** X10: every CA mount the loop accumulates is the mount line of a
    configmap known to the context, so the volumes of the Prometheus service
    are the scrape configuration mount, which comes first, and mount lines of
    known configmaps only: no volume refers to a configmap the run does not
    know. *)
Theorem X10_volumes_refer_to_known_configmaps (fnmatch : string → string → bool)
    (self_spec : option PrometheusSpec) (ms : list ServiceMonitor) (ctx ctx1 : Ctx) :
  let st := monitors_loop fnmatch ms (start ctx) in
  let volumes := cs_volumes (_build_prometheus_service self_spec (ca_mounts st) ctx1).1 in
  Forall (known_ca_mount ctx) (ca_mounts st)
  ∧ head volumes = Some scrape_config_mount
  ∧ Forall (known_ca_mount ctx) (tail volumes).
Proof.
  intros st volumes. subst st volumes.
  destruct (loop_from_start fnmatch ms ctx) as (jobs & mounts & added & _ & HM & ->).
  cbn [ca_mounts]. rewrite volumes_spec. cbn [head tail].
  split; [done|]. split; [done|].
  rewrite Forall_forall in *. intros x Hx. apply HM.
  by apply (elem_of_dedup x mounts).
Qed.

Lemma register_prometheus_frame ctx :
  warnings (register_prometheus ctx) = warnings ctx
  ∧ configmaps (register_prometheus ctx) = configmaps ctx
  ∧ generated_cms (register_prometheus ctx) = generated_cms ctx
  ∧ written (register_prometheus ctx) = written ctx.
Proof.
  unfold register_prometheus. by destruct (_find_prometheus_k8s_service ctx).
Qed.

Lemma process_servicemonitors_success fnmatch self_spec ms ctx :
  scrape_jobs (monitors_loop fnmatch ms (start ctx)) ≠ [] →
  _process_servicemonitors fnmatch self_spec ms ctx
  = ({| services :=
          [("prometheus",
            (_build_prometheus_service self_spec
               (ca_mounts (monitors_loop fnmatch ms (start ctx)))
               (_write_scrape_config (scrape_jobs (monitors_loop fnmatch ms (start ctx)))
                  (loop_ctx (monitors_loop fnmatch ms (start ctx))))).1)] |},
     register_prometheus
       (_build_prometheus_service self_spec
          (ca_mounts (monitors_loop fnmatch ms (start ctx)))
          (_write_scrape_config (scrape_jobs (monitors_loop fnmatch ms (start ctx)))
             (loop_ctx (monitors_loop fnmatch ms (start ctx))))).2).
Proof.
  intros Hjobs. destruct ms as [|m ms]; [done|].
  unfold _process_servicemonitors.
  destruct (scrape_jobs (monitors_loop fnmatch (m :: ms) (start ctx))) eqn:Hj; [done|].
  by destruct (_build_prometheus_service _ _ _).
Qed.

Lemma build_prometheus_service_ctx self_spec mounts ctx :
  ∃ extra,
    (_build_prometheus_service self_spec mounts ctx).2
    = with_warnings (warnings ctx ++ extra) ctx
    ∧ (self_spec ≠ None → extra = [])
    ∧ (self_spec = None →
       ∃ w, extra = [w] ∧ String.prefix "No Prometheus CR found" w = true).
Proof.
  unfold _build_prometheus_service. destruct self_spec as [spec|]; cbn [snd].
  - exists []. rewrite app_nil_r, with_warnings_id. by split_and!.
  - eexists [_]. split; [reflexivity|]. split; [done|]. intros _.
    eexists. split; [reflexivity|]. reflexivity.
Qed.

(** X11: a run that yields at least one scrape job returns exactly one
    service, keyed [prometheus]; it writes exactly one document, at
    [<output_dir>/configmaps/prometheus-scrape-config/prometheus.yml], with
    the global scrape interval [30s] and the jobs in the order the loop
    emitted them; it registers the configmap [prometheus-scrape-config] as
    generated; it leaves the known configmaps alone; and the warnings it
    appends are those of the monitors, followed by the warning about the
    missing Prometheus resource exactly when none was indexed. *)
Theorem X11_run_with_jobs (fnmatch : string → string → bool)
    (self_spec : option PrometheusSpec) (ms : list ServiceMonitor) (ctx : Ctx) :
  scrape_jobs (monitors_loop fnmatch ms (start ctx)) ≠ [] →
  let jobs := scrape_jobs (monitors_loop fnmatch ms (start ctx)) in
  let res := (_process_servicemonitors fnmatch self_spec ms ctx).1 in
  let ctx' := (_process_servicemonitors fnmatch self_spec ms ctx).2 in
  (∃ svc, services res = [("prometheus", svc)]
          ∧ cs_restart svc = "always" ∧ cs_ports svc = ["9090:9090"])
  ∧ written ctx'
    = written ctx
      ++ [([output_dir ctx; "configmaps"; "prometheus-scrape-config"; "prometheus.yml"],
           {| global_scrape_interval := "30s"; scrape_configs := jobs |})]
  ∧ generated_cms ctx' = {[ "prometheus-scrape-config" ]} ∪ generated_cms ctx
  ∧ configmaps ctx' = configmaps ctx
  ∧ ∃ added extra,
      warnings ctx' = warnings ctx ++ added ++ extra
      ∧ Forall monitor_warning added
      ∧ (self_spec ≠ None → extra = [])
      ∧ (self_spec = None →
         ∃ w, extra = [w] ∧ String.prefix "No Prometheus CR found" w = true).
Proof.
  intros Hjobs jobs res ctx'. subst jobs res ctx'.
  rewrite (process_servicemonitors_success _ _ _ _ Hjobs). cbn [fst snd services].
  destruct (register_prometheus_frame
    (_build_prometheus_service self_spec
       (ca_mounts (monitors_loop fnmatch ms (start ctx)))
       (_write_scrape_config (scrape_jobs (monitors_loop fnmatch ms (start ctx)))
          (loop_ctx (monitors_loop fnmatch ms (start ctx))))).2)
    as (-> & -> & -> & ->).
  destruct (build_prometheus_service_ctx self_spec
    (ca_mounts (monitors_loop fnmatch ms (start ctx)))
    (_write_scrape_config (scrape_jobs (monitors_loop fnmatch ms (start ctx)))
       (loop_ctx (monitors_loop fnmatch ms (start ctx)))))
    as (extra & -> & Hsome & Hnone).
  destruct (loop_from_start fnmatch ms ctx) as (jobs & mounts & added & HF & _ & ->).
  cbn. split_and!; try done.
  - eexists. split; [reflexivity|]. done.
  - exists added, extra. split_and!; try done. by rewrite <- app_assoc.
Qed.

Lemma X11_witness :
  scrape_jobs (monitors_loop glob_fnmatch [api_monitor] (start api_ctx)) ≠ []
  ∧ generated_cms (_process_servicemonitors glob_fnmatch None [api_monitor] api_ctx).2
    = {[ "prometheus-scrape-config" ]} ∪ generated_cms api_ctx.
Proof.
  assert (scrape_jobs (monitors_loop glob_fnmatch [api_monitor] (start api_ctx)) ≠ [])
    as H by (by vm_compute).
  split; [exact H|].
  exact (proj1 (proj2 (proj2 (X11_run_with_jobs glob_fnmatch None [api_monitor]
                                api_ctx H)))).
Defined.

(** *** TLS: the CA file and its mount *)

(** X12: in a scrape job, the CA file and the CA mount go together.  A job
    with a [ca_file] comes with exactly one mount, whose container path is
    that [ca_file], [/etc/prometheus/ca/<configmap>/<key>] for a configmap
    known to the context and the key [ca-certificates.crt] unless the
    endpoint names one, and it caused no warning; a job that brings a mount
    has a [ca_file]; a job never brings more than one mount.  An endpoint
    whose scheme is not exactly [https] gets no [tls_config], no mount and no
    warning, whatever its [tlsConfig] holds. *)
Theorem X12_ca_file_and_mount_agree (name : string) (idx cnt : nat) (ep : Endpoint)
    (svc_info : option ServiceInfo) (compose_name : string) (ctx ctx' : Ctx)
    (r : JobResult) :
  _build_scrape_job name idx cnt ep svc_info compose_name ctx = (Some r, ctx') →
  let key := default "ca-certificates.crt"
               ((ep_tlsConfig ep ≫= tls_ca_configMap) ≫= cm_ref_key) in
  (∀ t f, tls_config (jr_job r) = Some t → ca_file t = Some f →
     ∃ cm, cm ∈ configmaps ctx ∧ cm ≠ ""
           ∧ f = "/etc/prometheus/ca/" +:+ cm +:+ "/" +:+ key
           ∧ jr_ca_mounts r
             = ["./configmaps/" +:+ cm +:+ "/" +:+ key +:+ ":" +:+ f +:+ ":ro"]
           ∧ ctx' = ctx)
  ∧ (jr_ca_mounts r ≠ [] → ∃ t f, tls_config (jr_job r) = Some t ∧ ca_file t = Some f)
  ∧ (length (jr_ca_mounts r) ≤ 1)%nat
  ∧ (scheme (jr_job r) ≠ "https" →
     tls_config (jr_job r) = None ∧ jr_ca_mounts r = [] ∧ ctx' = ctx).
Proof.
  intros H key. unfold _build_scrape_job in H.
  destruct (_resolve_port ep svc_info) as [port|]; [|done].
  destruct (String.eqb (default "http" (ep_scheme ep)) "https") eqn:Hs.
  - apply String.eqb_eq in Hs. unfold _build_tls_config in H. fold key in H.
    set (cm := default "" ((ep_tlsConfig ep ≫= tls_ca_configMap) ≫= cm_ref_name)) in *.
    destruct (Py.truthy cm) eqn:Hcm;
      [destruct (bool_decide (cm ∈ configmaps ctx)) eqn:Hin|];
      cbn in H; injection H as <- <-; cbn.
    + apply bool_decide_eq_true in Hin. apply truthy_spec in Hcm. split_and!.
      * intros t f [= <-] [= <-]. by exists cm.
      * intros _. eexists _, _. by split.
      * lia.
      * by rewrite Hs.
    + split_and!; try done; try (simpl; lia); try (by rewrite Hs).
      all: intros t f Ht Hf; repeat case_match; by simplify_eq/=.
    + split_and!; try done; try (simpl; lia); try (by rewrite Hs).
      all: intros t f Ht Hf; repeat case_match; by simplify_eq/=.
  - injection H as <- <-. cbn. split_and!; try done; try (simpl; lia).
Qed.

Lemma X12_witness :
  ∃ r, _build_scrape_job "api" 0 1 ca_endpoint None "api" kube_ctx = (Some r, kube_ctx)
       ∧ (length (jr_ca_mounts r) ≤ 1)%nat.
Proof.
  eexists. split; [reflexivity|].
  exact (proj1 (proj2 (proj2 (X12_ca_file_and_mount_agree "api" 0 1 ca_endpoint None
                                "api" kube_ctx kube_ctx _ eq_refl)))).
Defined.

(** *** Indexing the Prometheus resource, and the two phases together *)


Lemma process_servicemonitors_warnings fnmatch self_spec ms ctx :
  ∃ added,
    warnings (_process_servicemonitors fnmatch self_spec ms ctx).2
    = warnings ctx ++ added
    ∧ Forall (λ w, run_warning w
                   ∨ (self_spec = None
                      ∧ String.prefix "No Prometheus CR found" w = true)) added.
Proof.
  destruct ms as [|m ms].
  { exists []. split; [by rewrite app_nil_r|constructor]. }
  destruct (scrape_jobs (monitors_loop fnmatch (m :: ms) (start ctx))) as [|j js] eqn:Hj.
  - unfold _process_servicemonitors. rewrite Hj.
    destruct (loop_from_start fnmatch (m :: ms) ctx) as (jobs & mounts & added & HF & _ & ->).
    exists (added ++ ["No resolvable ServiceMonitors found"]). cbn.
    split; [by rewrite app_assoc|]. apply Forall_app. split.
    + eapply Forall_impl; [exact HF|]. intros w Hw. cbv beta. left. by left.
    + apply Forall_singleton. left. by right.
  - rewrite process_servicemonitors_success by (by rewrite Hj).
    cbn [snd].
    destruct (register_prometheus_frame
      (_build_prometheus_service self_spec
         (ca_mounts (monitors_loop fnmatch (m :: ms) (start ctx)))
         (_write_scrape_config
            (scrape_jobs (monitors_loop fnmatch (m :: ms) (start ctx)))
            (loop_ctx (monitors_loop fnmatch (m :: ms) (start ctx))))).2)
      as (-> & _).
    destruct (build_prometheus_service_ctx self_spec
      (ca_mounts (monitors_loop fnmatch (m :: ms) (start ctx)))
      (_write_scrape_config (scrape_jobs (monitors_loop fnmatch (m :: ms) (start ctx)))
         (loop_ctx (monitors_loop fnmatch (m :: ms) (start ctx)))))
      as (extra & -> & Hsome & Hnone).
    destruct (loop_from_start fnmatch (m :: ms) ctx) as (jobs & mounts & added & HF & _ & ->).
    exists (added ++ extra). cbn. split; [by rewrite app_assoc|].
    apply Forall_app. split.
    + eapply Forall_impl; [exact HF|]. intros w Hw. cbv beta. left. by left.
    + destruct self_spec as [spec|].
      * rewrite Hsome by done. constructor.
      * destruct (Hnone eq_refl) as (w & -> & Hw). apply Forall_singleton. by right.
Qed.

(** X14: [convert] for the kind [Prometheus] returns no service and leaves
    the run context untouched; it retains a spec unless it was given no
    manifest and had none.  For any other kind it leaves the provider's own
    state untouched.  Converted in this order, first a non-empty list of
    Prometheus manifests and then ServiceMonitors, the run appends no warning
    about a missing Prometheus resource: every warning it appends is a
    monitor's or the one about no resolvable ServiceMonitor. *)
Theorem X14_convert_two_phases (fnmatch : string → string → bool) :
  (∀ self ms ctx,
     (convert fnmatch self "Prometheus" ms ctx).2 = ctx
     ∧ services (convert fnmatch self "Prometheus" ms ctx).1.1 = []
     ∧ (_prometheus_spec (convert fnmatch self "Prometheus" ms ctx).1.2 = None
        ↔ ms = [] ∧ _prometheus_spec self = None))
  ∧ (∀ self kind ms ctx,
       kind ≠ "Prometheus" → (convert fnmatch self kind ms ctx).1.2 = self)
  ∧ (∀ self m rest ctx0 kind sms ctx,
       kind ≠ "Prometheus" →
       ∃ added,
         warnings (convert fnmatch
                     (convert fnmatch self "Prometheus" (m :: rest) ctx0).1.2
                     kind sms ctx).2
         = warnings ctx ++ added
         ∧ Forall run_warning added).
Proof.
  split_and!.
  - intros self ms ctx. unfold convert. cbn [String.eqb].
    change (String.eqb "Prometheus" "Prometheus") with true. cbv iota.
    destruct ms as [|m ms]; cbn; split_and!; try done.
    + split; [done|by intros [_ ?]].
    + split; [done|by intros [? _]].
  - intros self kind ms ctx Hkind. unfold convert.
    apply String.eqb_neq in Hkind. rewrite Hkind.
    by destruct (_process_servicemonitors _ _ _ _).
  - intros self m rest ctx0 kind sms ctx Hkind. unfold convert.
    change (String.eqb "Prometheus" "Prometheus") with true. cbv iota.
    apply String.eqb_neq in Hkind. rewrite Hkind. cbn [_index_prometheus fmap list_fmap].
    cbn [fst snd _prometheus_spec].
    match goal with
    | |- context [_process_servicemonitors fnmatch ?sp ?l ctx] =>
        destruct (process_servicemonitors_warnings fnmatch sp l ctx) as (added & Hw & HF);
        destruct (_process_servicemonitors fnmatch sp l ctx) as [res c] eqn:Hp
    end.
    exists added. cbn [snd] in *. split; [done|].
    eapply Forall_impl; [exact HF|]. by intros w [Hw'|[? _]].
Qed.

(** *** Runs compose *)

(** X15: the loop over a list of manifests followed by another adds the jobs,
    the mounts and the warnings of the first list followed by those of the
    second, each as the loop adds them when it runs over that list alone from
    the same context: the order of the manifests is the order of the jobs,
    and no monitor changes what another one yields. *)
Theorem X15_loop_of_concatenation (fnmatch : string → string → bool)
    (ms1 ms2 : list ServiceMonitor) (ctx : Ctx) :
  let run ms := monitors_loop fnmatch ms (start ctx) in
  scrape_jobs (run (ms1 ++ ms2)) = scrape_jobs (run ms1) ++ scrape_jobs (run ms2)
  ∧ ca_mounts (run (ms1 ++ ms2)) = ca_mounts (run ms1) ++ ca_mounts (run ms2)
  ∧ ∃ a1 a2,
      warnings (loop_ctx (run ms1)) = warnings ctx ++ a1
      ∧ warnings (loop_ctx (run ms2)) = warnings ctx ++ a2
      ∧ warnings (loop_ctx (run (ms1 ++ ms2))) = warnings ctx ++ a1 ++ a2.
Proof.
  intros run. subst run. cbv beta.
  destruct (monitors_loop_pure fnmatch ctx ms1) as (j1 & m1 & a1 & _ & _ & H1).
  destruct (monitors_loop_pure fnmatch ctx ms2) as (j2 & m2 & a2 & _ & _ & H2).
  assert (start ctx = {| scrape_jobs := []; ca_mounts := [];
                         loop_ctx := with_warnings (warnings ctx) ctx |}) as ->
    by (unfold start; by rewrite with_warnings_id).
  unfold monitors_loop in *. rewrite fold_left_app, !H1, !H2.
  cbn. split; [done|]. split; [done|].
  exists a1, a2. split_and!; try done. by rewrite app_assoc.
Qed.

(** *** The endpoint without a port *)

(** X16: an endpoint whose port is missing, the empty string or the integer
    zero takes the first port of the matched service: its target port when
    it has one, else its port, as it stands.  Without a matched service, or
    when the service has no port, the endpoint is skipped with the warning
    about its port, which shows [(none)] for a missing port, nothing for the
    empty string and [0] for zero. *)
Theorem X16_endpoint_without_port (ep : Endpoint) (svc_info : option ServiceInfo) :
  port_truthy (default (PStr "") (ep_port ep)) = false →
  let token := match ep_port ep with
               | None => "(none)"
               | Some (PStr _) => ""
               | Some (PInt _) => "0"
               end in
  (∀ svc sp rest,
     svc_info = Some svc → svc_ports svc = sp :: rest →
     _resolve_port ep svc_info
     = match sp_targetPort sp with Some tp => Some tp | None => sp_port sp end)
  ∧ (svc_info = None ∨ (∃ svc, svc_info = Some svc ∧ svc_ports svc = []) →
     ∀ name idx cnt compose_name ctx,
       _build_scrape_job name idx cnt ep svc_info compose_name ctx
       = (None,
          warn ("ServiceMonitor '" +:+ name +:+ "': could not resolve port '"
                +:+ token +:+ "' to a number, skipping endpoint") ctx)).
Proof.
  intros Hfalsy token. split.
  - intros svc sp rest -> Hports. unfold _resolve_port. by rewrite Hfalsy, Hports.
  - intros Hsvc name idx cnt compose_name ctx. unfold _build_scrape_job.
    assert (_resolve_port ep svc_info = None) as ->.
    { unfold _resolve_port. rewrite Hfalsy. simpl.
      destruct Hsvc as [->|(svc & -> & ->)]; done. }
    do 4 f_equal. subst token.
    destruct (ep_port ep) as [[n|s]|]; simpl in *; [|by destruct s|done].
    apply negb_false_iff, Z.eqb_eq in Hfalsy. by subst n.
Qed.

Lemma X16_witness :
  port_truthy (default (PStr "") (ep_port (plain_endpoint (Some (PInt 0))))) = false
  ∧ _resolve_port (plain_endpoint (Some (PInt 0))) (Some api_service) = Some (PInt 8080).
Proof.
  split; [reflexivity|].
  exact (proj1 (X16_endpoint_without_port (plain_endpoint (Some (PInt 0)))
                  (Some api_service) eq_refl) api_service _ _ eq_refl eq_refl).
Defined.

(** *** The CA mounts of the endpoints reach the volumes *)

(** An https endpoint with a resolvable port and a known CA configmap yields
    a job that brings the mount line of that configmap and key. *)
Lemma build_scrape_job_ca_mount name idx cnt ep svc compose ctx port cm key :
  _resolve_port ep svc = Some port →
  default "http" (ep_scheme ep) = "https" →
  default "" ((ep_tlsConfig ep ≫= tls_ca_configMap) ≫= cm_ref_name) = cm →
  default "ca-certificates.crt" ((ep_tlsConfig ep ≫= tls_ca_configMap) ≫= cm_ref_key)
    = key →
  cm ≠ "" → cm ∈ configmaps ctx →
  ∃ r ctx', _build_scrape_job name idx cnt ep svc compose ctx = (Some r, ctx')
            ∧ jr_ca_mounts r = [ca_mount_line cm key].
Proof.
  intros Hport Hscheme Hcm Hkey Hne Hin.
  pose proof (tls_mount_of_name_key ep name ctx cm key Hcm Hkey Hne Hin) as Hm.
  unfold _build_scrape_job. rewrite Hport, Hscheme.
  change (String.eqb "https" "https") with true. cbv iota.
  destruct (_build_tls_config ep name ctx) as [[tls mounts] c]. cbn in Hm. subst mounts.
  eexists _, _. split; reflexivity.
Qed.

Lemma endpoints_loop_keeps line name cnt svc compose eps : ∀ idx st,
  line ∈ ca_mounts st ∧ scrape_jobs st ≠ [] →
  line ∈ ca_mounts (endpoints_loop name cnt svc compose idx eps st)
  ∧ scrape_jobs (endpoints_loop name cnt svc compose idx eps st) ≠ [].
Proof.
  induction eps as [|ep eps IH]; intros idx st [Hin Hjobs]; [done|].
  cbn [endpoints_loop].
  destruct (_build_scrape_job name idx cnt ep svc compose (loop_ctx st)) as [[r|] ctx'];
    apply IH; cbn [ca_mounts scrape_jobs]; split; try done.
  - apply elem_of_app. by left.
  - by destruct (scrape_jobs st).
Qed.

Lemma endpoints_loop_emits name cnt svc compose ep port cm key eps : ∀ idx st,
  ep ∈ eps →
  _resolve_port ep svc = Some port →
  default "http" (ep_scheme ep) = "https" →
  default "" ((ep_tlsConfig ep ≫= tls_ca_configMap) ≫= cm_ref_name) = cm →
  default "ca-certificates.crt" ((ep_tlsConfig ep ≫= tls_ca_configMap) ≫= cm_ref_key)
    = key →
  cm ≠ "" → cm ∈ configmaps (loop_ctx st) →
  ca_mount_line cm key ∈ ca_mounts (endpoints_loop name cnt svc compose idx eps st)
  ∧ scrape_jobs (endpoints_loop name cnt svc compose idx eps st) ≠ [].
Proof.
  induction eps as [|e eps IH]; intros idx st Hep Hport Hscheme Hcm Hkey Hne Hin;
    [by apply elem_of_nil in Hep|].
  apply elem_of_cons in Hep as [<-|Hep].
  - destruct (build_scrape_job_ca_mount name idx cnt ep svc compose (loop_ctx st)
                port cm key Hport Hscheme Hcm Hkey Hne Hin) as (r & ctx' & Hjob & Hm).
    cbn [endpoints_loop]. rewrite Hjob. apply endpoints_loop_keeps.
    cbn [ca_mounts scrape_jobs]. rewrite Hm. split.
    + apply elem_of_app. right. by left.
    + by destruct (scrape_jobs st).
  - cbn [endpoints_loop].
    destruct (build_scrape_job_appends name idx cnt e svc compose (loop_ctx st))
      as (ws & Happ & _).
    destruct (_build_scrape_job name idx cnt e svc compose (loop_ctx st)) as [res ctx'].
    cbn [snd] in Happ. unfold appends in Happ.
    apply IH; try done. by destruct res; cbn [loop_ctx]; rewrite Happ.
Qed.

Lemma monitor_step_keeps fnmatch line st m :
  line ∈ ca_mounts st ∧ scrape_jobs st ≠ [] →
  line ∈ ca_mounts (monitor_step fnmatch st m)
  ∧ scrape_jobs (monitor_step fnmatch st m) ≠ [].
Proof.
  intros H. unfold monitor_step.
  destruct (sm_matchLabels m) as [|kv ml]; [done|].
  destruct (resolve_target _ _ _) as [[svc compose]|]; [|done].
  destruct (_is_excluded _ _ _); [done|]. by apply endpoints_loop_keeps.
Qed.

Lemma monitors_loop_keeps fnmatch line ms : ∀ st,
  line ∈ ca_mounts st ∧ scrape_jobs st ≠ [] →
  line ∈ ca_mounts (monitors_loop fnmatch ms st)
  ∧ scrape_jobs (monitors_loop fnmatch ms st) ≠ [].
Proof.
  induction ms as [|m ms IH]; intros st H; [done|].
  apply IH. by apply monitor_step_keeps.
Qed.

Lemma monitors_loop_emits fnmatch m ep svc compose port cm key ms : ∀ st,
  m ∈ ms → ep ∈ sm_endpoints m →
  sm_matchLabels m ≠ [] →
  resolve_target (default "?" (sm_name m)) (sm_matchLabels m) (loop_ctx st)
    = Some (svc, compose) →
  _is_excluded fnmatch compose (config_exclude (loop_ctx st)) = false →
  _resolve_port ep svc = Some port →
  default "http" (ep_scheme ep) = "https" →
  default "" ((ep_tlsConfig ep ≫= tls_ca_configMap) ≫= cm_ref_name) = cm →
  default "ca-certificates.crt" ((ep_tlsConfig ep ≫= tls_ca_configMap) ≫= cm_ref_key)
    = key →
  cm ≠ "" → cm ∈ configmaps (loop_ctx st) →
  ca_mount_line cm key ∈ ca_mounts (monitors_loop fnmatch ms st)
  ∧ scrape_jobs (monitors_loop fnmatch ms st) ≠ [].
Proof.
  induction ms as [|m' ms IH];
    intros st Hm Hep Hml Hres Hex Hport Hscheme Hcm Hkey Hne Hin;
    [by apply elem_of_nil in Hm|].
  unfold monitors_loop. cbn [fold_left]. fold (monitors_loop fnmatch ms).
  apply elem_of_cons in Hm as [<-|Hm].
  - apply monitors_loop_keeps. unfold monitor_step.
    destruct (sm_matchLabels m) as [|kv ml]; [done|].
    rewrite Hres, Hex. by eapply endpoints_loop_emits.
  - destruct (monitor_step_appends fnmatch st m') as (ws & Happ & _).
    unfold appends in Happ.
    apply IH; try done; rewrite Happ.
    + by rewrite resolve_target_with_warnings.
    + done.
    + done.
Qed.

(** A run over one monitor with two endpoints that refer to the same
    configmap and key: both endpoints contribute their mount, the service
    has it once. *)
Example two_endpoints_one_mount :
  ca_mounts (monitors_loop glob_fnmatch [two_ca_monitor] (start kube_ctx))
  = [ca_mount_line "internal-ca" "ca-certificates.crt";
     ca_mount_line "internal-ca" "ca-certificates.crt"]
  ∧ (cs_volumes <$> assoc "prometheus"
       (services (_process_servicemonitors glob_fnmatch None [two_ca_monitor] kube_ctx).1))
    = Some [scrape_config_mount; ca_mount_line "internal-ca" "ca-certificates.crt"].
Proof. by vm_compute. Qed.

(** C9: the volumes of the Prometheus service are the mount of the scrape
    configuration followed by the accumulated CA mounts without their
    repetitions, each kept where it is first seen.  A mount that was
    accumulated, however often, therefore occurs exactly once after the
    scrape configuration mount; so do the equal mounts of two endpoints that
    refer to the same configmap and key.  And the mounts of the endpoints are
    accumulated: in a run, every https endpoint of a resolved monitor that is
    not excluded, with a port that resolves and a known CA configmap, has its
    mount line among the mounts the loop hands over, and the service the run
    returns has that line exactly once among its volumes, however many
    endpoints refer to that configmap and key. *)
Theorem C9_volumes_deduplicated (self_spec : option PrometheusSpec)
    (mounts : list string) (ctx : Ctx) :
  let volumes := cs_volumes (_build_prometheus_service self_spec mounts ctx).1 in
  volumes = scrape_config_mount :: dedup_first_seen mounts
  ∧ NoDup (dedup_first_seen mounts)
  ∧ (∀ x, x ∈ dedup_first_seen mounts ↔ x ∈ mounts)
  ∧ (∀ l x, dedup_first_seen (l ++ [x])
            = if decide (x ∈ l) then dedup_first_seen l else dedup_first_seen l ++ [x])
  ∧ (∀ x, x ∈ mounts → length (filter (λ y, y = x) (tail volumes)) = 1%nat)
  ∧ (∀ ep1 ep2 name1 name2 ctx1 ctx2 pre mid post,
       mounts = pre ++ (_build_tls_config ep1 name1 ctx1).1.2 ++ mid
                ++ (_build_tls_config ep2 name2 ctx2).1.2 ++ post →
       ∀ cm key,
       default "" ((ep_tlsConfig ep1 ≫= tls_ca_configMap) ≫= cm_ref_name) = cm →
       default "" ((ep_tlsConfig ep2 ≫= tls_ca_configMap) ≫= cm_ref_name) = cm →
       default "ca-certificates.crt"
         ((ep_tlsConfig ep1 ≫= tls_ca_configMap) ≫= cm_ref_key) = key →
       default "ca-certificates.crt"
         ((ep_tlsConfig ep2 ≫= tls_ca_configMap) ≫= cm_ref_key) = key →
       cm ≠ "" → cm ∈ configmaps ctx1 → cm ∈ configmaps ctx2 →
       length (filter (λ y, y = ca_mount_line cm key) (tail volumes)) = 1%nat)
  ∧ (∀ (fnmatch : string → string → bool) (spec : option PrometheusSpec)
       (ms : list ServiceMonitor) (ctx0 : Ctx) (m : ServiceMonitor) (ep : Endpoint)
       (target_svc : option ServiceInfo) (compose_name : string) (port : PortVal)
       (cm key : string),
       m ∈ ms → ep ∈ sm_endpoints m →
       sm_matchLabels m ≠ [] →
       resolve_target (default "?" (sm_name m)) (sm_matchLabels m) ctx0
         = Some (target_svc, compose_name) →
       _is_excluded fnmatch compose_name (config_exclude ctx0) = false →
       _resolve_port ep target_svc = Some port →
       default "http" (ep_scheme ep) = "https" →
       default "" ((ep_tlsConfig ep ≫= tls_ca_configMap) ≫= cm_ref_name) = cm →
       default "ca-certificates.crt"
         ((ep_tlsConfig ep ≫= tls_ca_configMap) ≫= cm_ref_key) = key →
       cm ≠ "" → cm ∈ configmaps ctx0 →
       ca_mount_line cm key ∈ ca_mounts (monitors_loop fnmatch ms (start ctx0))
       ∧ ∃ svc,
           services (_process_servicemonitors fnmatch spec ms ctx0).1
           = [("prometheus", svc)]
           ∧ cs_volumes svc
             = scrape_config_mount
               :: dedup_first_seen (ca_mounts (monitors_loop fnmatch ms (start ctx0)))
           ∧ length (filter (λ y, y = ca_mount_line cm key) (tail (cs_volumes svc)))
             = 1%nat).
Proof.
  intros volumes.
  assert (volumes = scrape_config_mount :: dedup_first_seen mounts) as Hvol.
  { unfold volumes, _build_prometheus_service. cbn [fst cs_volumes].
    rewrite append_unseen_spec, filter_unseen; [done|].
    intros x _. apply not_elem_of_empty. }
  assert (∀ x, x ∈ mounts → length (filter (λ y, y = x) (tail volumes)) = 1%nat) as Honce.
  { intros x Hx. rewrite Hvol. simpl.
    apply once_in_NoDup; [apply NoDup_dedup|by apply elem_of_dedup]. }
  split_and!; try done.
  - apply NoDup_dedup.
  - intros x. apply elem_of_dedup.
  - intros l x. apply dedup_snoc.
  - intros ep1 ep2 name1 name2 ctx1 ctx2 pre mid post Hmounts cm key
      Hcm1 Hcm2 Hkey1 Hkey2 Hne Hin1 Hin2.
    apply Honce. rewrite Hmounts.
    rewrite (tls_mount_of_name_key ep1 name1 ctx1 cm key) by done.
    rewrite !elem_of_app. right. left. by left.
  - intros fnmatch spec ms ctx0 m ep target_svc compose_name port cm key
      Hm Hep Hml Hres Hex Hport Hscheme Hcm Hkey Hne Hin.
    destruct (monitors_loop_emits fnmatch m ep target_svc compose_name port cm key ms
                (start ctx0) Hm Hep Hml Hres Hex Hport Hscheme Hcm Hkey Hne Hin)
      as [Hline Hjobs].
    split; [done|].
    rewrite (process_servicemonitors_success _ _ _ _ Hjobs). cbn [fst services].
    eexists. split; [reflexivity|]. rewrite volumes_spec. split; [done|].
    cbn [tail].
    apply once_in_NoDup; [apply NoDup_dedup|by apply elem_of_dedup].
Qed.

(** *** Resolving to the registered Prometheus *)

(** X4: once a service [k8s] that exposes Prometheus was registered, its
    name is an alias of [prometheus] and the registry has an entry keyed
    [prometheus] (the synthetic one, with the ports and namespace of [k8s],
    unless the key was taken).  The name heuristic then answers [prometheus]
    for the name of [k8s].  So a monitor with that name whose labels, not
    empty, match no service by label resolves to [prometheus] without a
    service, and unless [prometheus] is excluded its endpoints are
    processed under that name.  A monitor, of any name, whose labels match
    [k8s] itself resolves to [prometheus] too, with [k8s] for service.  (A
    monitor whose labels match another service resolves to that service, and
    one without labels is skipped: the label match comes first.) *)
Theorem X4_registered_service_resolves_by_name (ctx : Ctx) (k8s : ServiceInfo)
    (ml : list (string * string)) :
  _find_prometheus_k8s_service ctx = Some k8s →
  let ctx' := register_prometheus ctx in
  alias_map ctx' !! svc_name k8s = Some "prometheus"
  ∧ is_Some (assoc "prometheus" (services_by_selector ctx'))
  ∧ (assoc "prometheus" (services_by_selector ctx) = None →
     assoc "prometheus" (services_by_selector ctx')
     = Some (synthetic_prometheus (svc_namespace k8s) (svc_ports k8s)))
  ∧ _fallback_by_name (svc_name k8s) ml ctx' = Some "prometheus"
  ∧ (_find_service ml ctx = None →
     resolve_target (svc_name k8s) ml ctx' = Some (None, "prometheus"))
  ∧ (∀ name, _find_service ml ctx = Some k8s →
             resolve_target name ml ctx' = Some (Some k8s, "prometheus"))
  ∧ (∀ (fnmatch : string → string → bool) (st : Loop) (m : ServiceMonitor),
       loop_ctx st = ctx' →
       sm_name m = Some (svc_name k8s) →
       sm_matchLabels m = ml →
       ml ≠ [] →
       _find_service ml ctx = None →
       _is_excluded fnmatch "prometheus" (config_exclude ctx) = false →
       monitor_step fnmatch st m
       = endpoints_loop (svc_name k8s) (length (sm_endpoints m)) None "prometheus" 0
           (sm_endpoints m) st).
Proof.
  intros Hfind ctx'.
  assert (alias_map ctx' !! svc_name k8s = Some "prometheus") as Halias.
  { unfold ctx', register_prometheus. rewrite Hfind. simpl. apply lookup_insert_eq. }
  assert (_fallback_by_name (svc_name k8s) ml ctx' = Some "prometheus") as Hfb.
  { unfold _fallback_by_name, candidates. simpl. rewrite Halias. simpl.
    rewrite bool_decide_eq_true_2; [done|].
    apply known_names_spec. right. left. by exists (svc_name k8s). }
  assert (_find_service ml ctx = None →
          resolve_target (svc_name k8s) ml ctx' = Some (None, "prometheus")) as Hres.
  { intros Hnone. unfold resolve_target.
    unfold ctx' at 1. by rewrite find_service_register, Hnone, Hfb. }
  assert (config_exclude ctx' = config_exclude ctx) as Hexcl.
  { unfold ctx', register_prometheus. by rewrite Hfind. }
  split; [done|]. split_and!.
  - unfold ctx', register_prometheus. rewrite Hfind. simpl.
    destruct (assoc "prometheus" (services_by_selector ctx)) eqn:Hassoc.
    + by rewrite Hassoc.
    + by rewrite (assoc_snoc_new _ _ _ Hassoc).
  - intros Hassoc. unfold ctx', register_prometheus. rewrite Hfind. simpl.
    rewrite Hassoc. by apply assoc_snoc_new.
  - done.
  - done.
  - intros name Hsome. unfold resolve_target.
    unfold ctx' at 1. rewrite find_service_register, Hsome. cbn zeta.
    by rewrite Halias.
  - intros fnmatch st m Hctx Hname Hml Hne Hnone Hex.
    unfold monitor_step. rewrite Hctx, Hname, Hml. cbn [default from_option id].
    destruct ml as [|kv ml']; [done|].
    by rewrite (Hres Hnone), Hexcl, Hex.
Qed.

Lemma X4_witness :
  _find_prometheus_k8s_service kube_ctx = Some kube_prometheus_service
  ∧ _find_service [("team", "obs")] kube_ctx = None
  ∧ resolve_target "kube-prometheus" [("team", "obs")] (register_prometheus kube_ctx)
    = Some (None, "prometheus").
Proof.
  split; [reflexivity|]. split; [reflexivity|].
  exact (proj1 (proj2 (proj2 (proj2 (proj2
           (X4_registered_service_resolves_by_name kube_ctx kube_prometheus_service
              [("team", "obs")] eq_refl))))) eq_refl).
Defined.

(** *** Ports written in ASCII *)

Lemma isdigit_ascii s : Py.isdigit s = true → is_ascii s = true.
Proof.
  unfold Py.isdigit. intros [_ H]%andb_true_iff.
  induction s as [|c s IH]; [done|]. cbn [Py.all_digits is_ascii] in *.
  apply andb_true_iff in H as [Hc Hs]. rewrite (IH Hs), andb_true_r.
  unfold Py.is_digit_char, Py.digit_value in Hc.
  destruct ((48 <=? nat_of_ascii c)%nat && (nat_of_ascii c <=? 57)%nat) eqn:Hr; [|done].
  apply andb_true_iff in Hr as [_ Hr]. apply Nat.leb_le in Hr. apply Nat.ltb_lt. lia.
Qed.

(** X5: without a matched service (the monitor was resolved by name), and
    for a port that, when it is a string, is written in ASCII, the port
    resolves exactly when it is given as a number: an integer other than
    zero, or a non-empty string of digits, which is read as a decimal.  A
    named port, a missing port, the integer zero and the empty string do not
    resolve. *)
Theorem X5_no_service_only_numeric_ports (ep : Endpoint) (p : PortVal) :
  (∀ s, ep_port ep = Some (PStr s) → is_ascii s = true) →
  _resolve_port ep None = Some p
  ↔ (∃ n, n ≠ 0 ∧ ep_port ep = Some (PInt n) ∧ p = PInt n)
    ∨ (∃ s, ep_port ep = Some (PStr s) ∧ is_ascii s = true
            ∧ Py.isdigit s = true ∧ p = PInt (Py.int s)).
Proof.
  intros Hascii. unfold _resolve_port. destruct (ep_port ep) as [[n|s]|]; simpl.
  - destruct (Z.eqb_spec n 0) as [->|Hn]; simpl.
    + split; [done|]. intros [(m & Hm & [= <-] & _)|(s & [=] & _)]. done.
    + split.
      * intros [= <-]. left. by exists n.
      * by intros [(m & _ & [= <-] & ->)|(s & [=] & _)].
  - destruct s as [|c s]; simpl.
    + split; [done|]. intros [(m & _ & [=] & _)|(s & [= <-] & _ & Hd & _)]. done.
    + destruct (Py.isdigit (String c s)) eqn:Hd.
      * split.
        -- intros [= <-]. right. exists (String c s). split_and!; try done. by apply Hascii.
        -- by intros [(m & _ & [=] & _)|(s' & [= <-] & _ & _ & ->)].
      * split; [done|].
        intros [(m & _ & [=] & _)|(s' & [= <-] & _ & Hd' & _)]. congruence.
  - split; [done|]. by intros [(m & _ & [=] & _)|(s' & [=] & _)].
Qed.

Lemma X5_witness :
  (∀ s, ep_port (plain_endpoint (Some (PStr "9100"))) = Some (PStr s) → is_ascii s = true)
  ∧ _resolve_port (plain_endpoint (Some (PStr "9100"))) None = Some (PInt 9100).
Proof.
  assert (∀ s, ep_port (plain_endpoint (Some (PStr "9100"))) = Some (PStr s)
               → is_ascii s = true) as H by (by intros s [= <-]).
  split; [exact H|].
  apply (X5_no_service_only_numeric_ports (plain_endpoint (Some (PStr "9100")))
           (PInt 9100) H).
  right. exists "9100". by split_and!.
Defined.

(** X6: a named port written in ASCII is looked up among the ports of the
    matched service, and the first port of that name decides alone.  Its
    target port (its port, when it has no target port) is the result when it
    is an integer or a string of ASCII digits; when it is itself a name
    written in ASCII, or missing, the port does not resolve, also if a later
    port of the same name has a number.  With no port of that name the port
    does not resolve. *)
Theorem X6_named_port_first_entry_decides (ep : Endpoint) (svc : ServiceInfo)
    (s : string) :
  ep_port ep = Some (PStr s) →
  s ≠ "" →
  is_ascii s = true →
  Py.isdigit s = false →
  ((∀ q, q ∈ svc_ports svc → sp_name q ≠ Some s) → _resolve_port ep (Some svc) = None)
  ∧ (∀ pre sp post,
       svc_ports svc = pre ++ sp :: post →
       (∀ q, q ∈ pre → sp_name q ≠ Some s) →
       sp_name sp = Some s →
       (∀ n, target_or_port sp = Some (PInt n) →
             _resolve_port ep (Some svc) = Some (PInt n))
       ∧ (∀ t, target_or_port sp = Some (PStr t) → is_ascii t = true →
               Py.isdigit t = true →
               _resolve_port ep (Some svc) = Some (PInt (Py.int t)))
       ∧ (∀ t, target_or_port sp = Some (PStr t) → is_ascii t = true →
               Py.isdigit t = false →
               _resolve_port ep (Some svc) = None)
       ∧ (target_or_port sp = None → _resolve_port ep (Some svc) = None)).
Proof.
  intros Hep Hs _ Hd.
  assert (_resolve_port ep (Some svc) = named_port s (svc_ports svc)) as ->.
  { unfold _resolve_port. rewrite Hep. simpl.
    by rewrite (proj2 (truthy_spec s) Hs), Hd. }
  split; [apply named_port_no_match|].
  intros pre sp post -> Hpre Hsp. rewrite (named_port_first _ _ _ _ Hpre Hsp). simpl.
  rewrite bool_decide_eq_true_2 by done.
  split_and!.
  - by intros n ->.
  - by intros t -> _ ->.
  - by intros t -> _ ->.
  - by intros ->.
Qed.

Lemma X6_witness :
  is_ascii "web" = true
  ∧ Py.isdigit "web" = false
  ∧ is_ascii "http" = true
  ∧ _resolve_port (plain_endpoint (Some (PStr "web"))) (Some shadowed_service) = None.
Proof.
  split; [reflexivity|]. split; [reflexivity|]. split; [reflexivity|].
  refine (proj1 (proj2 (proj2 (proj2 (X6_named_port_first_entry_decides
            (plain_endpoint (Some (PStr "web"))) shadowed_service "web"
            eq_refl ltac:(done) eq_refl eq_refl)
          [] _ _ eq_refl _ eq_refl))) "http" eq_refl eq_refl eq_refl).
  by intros q ?%elem_of_nil.
Defined.

(** *** What the loop reads of the context *)

Lemma first_known_with_frame ws gen out wr ctx known cands :
  first_known (with_frame ws gen out wr ctx) known cands = first_known ctx known cands.
Proof. induction cands as [|c cands IH]; simpl; [done|]. by rewrite IH. Qed.

Lemma resolve_target_with_frame ws gen out wr name ml ctx :
  resolve_target name ml (with_frame ws gen out wr ctx) = resolve_target name ml ctx.
Proof.
  unfold resolve_target, _fallback_by_name.
  change (_find_service ml (with_frame ws gen out wr ctx)) with (_find_service ml ctx).
  change (known_names (with_frame ws gen out wr ctx)) with (known_names ctx).
  by rewrite first_known_with_frame.
Qed.

Lemma build_tls_config_framed ep name ctx :
  ∃ tls mounts added,
    Forall monitor_warning added
    ∧ ∀ ws gen out wr,
        _build_tls_config ep name (with_frame ws gen out wr ctx)
        = (tls, mounts, with_frame (ws ++ added) gen out wr ctx).
Proof.
  unfold _build_tls_config. cbn [configmaps with_frame].
  set (cm := default "" ((ep_tlsConfig ep ≫= tls_ca_configMap) ≫= cm_ref_name)).
  destruct (Py.truthy cm) eqn:Hcm; [destruct (bool_decide (cm ∈ configmaps ctx)) eqn:Hin|];
    simpl.
  - eexists _, _, []. split; [constructor|].
    intros ws gen out wr. rewrite app_nil_r. reflexivity.
  - eexists _, _, [_]. split; cycle 1.
    + intros ws gen out wr. reflexivity.
    + repeat constructor. apply monitor_warning_intro.
  - eexists _, _, []. split; [constructor|].
    intros ws gen out wr. rewrite app_nil_r. reflexivity.
Qed.

Lemma build_scrape_job_framed name idx cnt ep svc compose ctx :
  ∃ res added,
    Forall monitor_warning added
    ∧ ∀ ws gen out wr,
        _build_scrape_job name idx cnt ep svc compose (with_frame ws gen out wr ctx)
        = (res, with_frame (ws ++ added) gen out wr ctx).
Proof.
  unfold _build_scrape_job. cbn [services_by_selector with_frame].
  destruct (_resolve_port ep svc) as [port|].
  - destruct (String.eqb (default "http" (ep_scheme ep)) "https").
    + destruct (build_tls_config_framed ep name ctx) as (tls & mounts & added & HF & H).
      eexists _, added. split; [done|].
      intros ws gen out wr. rewrite H. reflexivity.
    + eexists _, []. split; [constructor|].
      intros ws gen out wr. rewrite app_nil_r. reflexivity.
  - eexists None, [_]. split; cycle 1.
    + intros ws gen out wr. reflexivity.
    + repeat constructor. apply monitor_warning_intro.
Qed.

Lemma endpoints_loop_framed name cnt svc compose ctx eps : ∀ idx,
  ∃ jobs mounts added,
    Forall monitor_warning added
    ∧ ∀ ws gen out wr j0 m0,
        endpoints_loop name cnt svc compose idx eps
          {| scrape_jobs := j0; ca_mounts := m0;
             loop_ctx := with_frame ws gen out wr ctx |}
        = {| scrape_jobs := j0 ++ jobs; ca_mounts := m0 ++ mounts;
             loop_ctx := with_frame (ws ++ added) gen out wr ctx |}.
Proof.
  induction eps as [|ep eps IH]; intros idx.
  - exists [], [], []. split; [constructor|].
    intros ws gen out wr j0 m0. simpl. by rewrite !app_nil_r.
  - destruct (build_scrape_job_framed name idx cnt ep svc compose ctx)
      as (res & a1 & HF1 & H1).
    destruct (IH (S idx)) as (jobs & mounts & a2 & HF2 & H2).
    destruct res as [r|].
    + exists (jr_job r :: jobs), (jr_ca_mounts r ++ mounts), (a1 ++ a2).
      split; [by apply Forall_app|].
      intros ws gen out wr j0 m0. cbn [endpoints_loop loop_ctx]. rewrite H1.
      cbn [scrape_jobs ca_mounts]. rewrite H2.
      by rewrite <- !app_assoc.
    + exists jobs, mounts, (a1 ++ a2).
      split; [by apply Forall_app|].
      intros ws gen out wr j0 m0. cbn [endpoints_loop loop_ctx]. rewrite H1.
      cbn [scrape_jobs ca_mounts]. rewrite H2.
      by rewrite <- !app_assoc.
Qed.

Lemma monitor_step_framed fnmatch m ctx :
  ∃ jobs mounts added,
    Forall monitor_warning added
    ∧ ∀ ws gen out wr j0 m0,
        monitor_step fnmatch
          {| scrape_jobs := j0; ca_mounts := m0;
             loop_ctx := with_frame ws gen out wr ctx |} m
        = {| scrape_jobs := j0 ++ jobs; ca_mounts := m0 ++ mounts;
             loop_ctx := with_frame (ws ++ added) gen out wr ctx |}.
Proof.
  unfold monitor_step. cbn [loop_ctx config_exclude with_frame].
  destruct (sm_matchLabels m) as [|kv ml] eqn:Hml.
  { eexists [], [], [_]. split; cycle 1.
    - intros ws gen out wr j0 m0. unfold warn_loop. simpl. rewrite !app_nil_r.
      reflexivity.
    - repeat constructor. apply monitor_warning_intro. }
  destruct (resolve_target (default "?" (sm_name m)) (kv :: ml) ctx)
    as [[svc compose]|] eqn:Hres.
  - destruct (_is_excluded fnmatch compose (config_exclude ctx)) eqn:Hex.
    + exists [], [], []. split; [constructor|].
      intros ws gen out wr j0 m0. rewrite resolve_target_with_frame, Hres, Hex.
      by rewrite !app_nil_r.
    + destruct (endpoints_loop_framed (default "?" (sm_name m))
                  (length (sm_endpoints m)) svc compose ctx (sm_endpoints m) 0%nat)
        as (jobs & mounts & added & HF & H).
      exists jobs, mounts, added. split; [done|].
      intros ws gen out wr j0 m0. rewrite resolve_target_with_frame, Hres, Hex. apply H.
  - eexists [], [], [_]. split; cycle 1.
    + intros ws gen out wr j0 m0. rewrite resolve_target_with_frame, Hres.
      unfold warn_loop. simpl. rewrite !app_nil_r. reflexivity.
    + repeat constructor. apply monitor_warning_intro.
Qed.

Lemma monitors_loop_framed fnmatch ctx ms :
  ∃ jobs mounts added,
    Forall monitor_warning added
    ∧ ∀ ws gen out wr j0 m0,
        monitors_loop fnmatch ms
          {| scrape_jobs := j0; ca_mounts := m0;
             loop_ctx := with_frame ws gen out wr ctx |}
        = {| scrape_jobs := j0 ++ jobs; ca_mounts := m0 ++ mounts;
             loop_ctx := with_frame (ws ++ added) gen out wr ctx |}.
Proof.
  induction ms as [|m ms IH].
  - exists [], [], []. split; [constructor|].
    intros ws gen out wr j0 m0. simpl. by rewrite !app_nil_r.
  - destruct (monitor_step_framed fnmatch m ctx) as (j1 & m1 & a1 & HF1 & H1).
    destruct IH as (j2 & m2 & a2 & HF2 & H2).
    exists (j1 ++ j2), (m1 ++ m2), (a1 ++ a2).
    split; [by apply Forall_app|].
    intros ws gen out wr j0 m0. unfold monitors_loop in *. cbn [fold_left].
    rewrite H1, H2. by rewrite <- !app_assoc.
Qed.

Lemma same_inputs_with_frame ctx ctx2 :
  config_exclude ctx2 = config_exclude ctx →
  alias_map ctx2 = alias_map ctx →
  services_by_selector ctx2 = services_by_selector ctx →
  configmaps ctx2 = configmaps ctx →
  ∀ ws, with_warnings ws ctx2
        = with_frame ws (generated_cms ctx2) (output_dir ctx2) (written ctx2) ctx.
Proof.
  destruct ctx, ctx2. cbn. intros -> -> -> -> ws. reflexivity.
Qed.

(** X8: what the loop over the manifests adds, the scrape jobs, the CA
    mounts and the warnings, depends on the manifests, the exclude list, the
    alias table, the registry and the known configmaps only.  From any two
    contexts that agree on those four, whatever their warnings, generated
    configmaps, output directory and written files, and from any jobs and
    mounts accumulated before, the loop adds the same jobs, the same mounts
    and the same warnings; what was accumulated before stays in front,
    untouched; every other field of the context is left as it was; and each
    warning added starts with [ServiceMonitor ']. *)
Theorem X8_loop_only_appends (fnmatch : string → string → bool)
    (ms : list ServiceMonitor) (ctx : Ctx) :
  ∃ jobs mounts added,
    Forall monitor_warning added
    ∧ (∀ ws j0 m0,
         monitors_loop fnmatch ms
           {| scrape_jobs := j0; ca_mounts := m0; loop_ctx := with_warnings ws ctx |}
         = {| scrape_jobs := j0 ++ jobs; ca_mounts := m0 ++ mounts;
              loop_ctx := with_warnings (ws ++ added) ctx |})
    ∧ (∀ ctx2 j0 m0,
         config_exclude ctx2 = config_exclude ctx →
         alias_map ctx2 = alias_map ctx →
         services_by_selector ctx2 = services_by_selector ctx →
         configmaps ctx2 = configmaps ctx →
         monitors_loop fnmatch ms
           {| scrape_jobs := j0; ca_mounts := m0; loop_ctx := ctx2 |}
         = {| scrape_jobs := j0 ++ jobs; ca_mounts := m0 ++ mounts;
              loop_ctx := with_warnings (warnings ctx2 ++ added) ctx2 |}).
Proof.
  destruct (monitors_loop_framed fnmatch ctx ms) as (jobs & mounts & added & HF & H).
  exists jobs, mounts, added. split; [done|]. split.
  - intros ws j0 m0.
    exact (H ws (generated_cms ctx) (output_dir ctx) (written ctx) j0 m0).
  - intros ctx2 j0 m0 He Ha Hr Hc.
    rewrite <- (with_warnings_id ctx2) at 1.
    rewrite !(same_inputs_with_frame ctx ctx2 He Ha Hr Hc). apply H.
Qed.
